(** * Open3D GUI application run loop

    A shallow embedding of [open3d::visualization::gui::Application]
    (cpp/open3d/visualization/gui/Application.cpp): the window registry,
    the cross-thread post queue, the background task list and the
    single-step run loop, together with the properties of the design
    document that concern them.

    Conventions of the embedding.
    - A live [Window] object is identified by its address (a [positive]);
      a raw [Window *] is an [option Window], [None] being [nullptr].
      The two [std::unordered_set<std::shared_ptr<Window>>] are [gset]s.
      The iteration order of an unordered set is unspecified; the model
      iterates in the order of [elements] and no theorem depends on it.
    - Calls into collaborators that are not part of this file (the window
      system, the rendering engine, windows, tasks, posted closures, the
      native alert) are recorded as [Event]s, in program order.  Closures
      and window callbacks are opaque: the model records that they are
      called and assumes that they leave the state of the Application alone
      while a step runs.
    - [double] values are IEEE binary64 primitive floats.
    - Every operation is a computation in the monad [App]: it threads the
      application state, appends events and may raise. *)

From Stdlib Require Import PrimFloat.
From stdpp Require Import base tactics decidable option list sets gmap strings.

Local Open Scope string_scope.
Local Open Scope list_scope.
Local Open Scope nat_scope.

(* 0.010 and 0.95 are rounded to the nearest binary64 value, as the C++
   literals are. *)
#[local] Set Warnings "-inexact-float".

(** ** Data model *)

Definition Window := positive.
Definition WindowPtr := option Window.
Definition nullptr : WindowPtr := None.

(** [std::function<void()>]: the model only needs to tell closures apart. *)
Definition Closure := nat.

(** [gui::Task]: a thread with an observable finished flag. *)
Record Task := mkTask {
  task_id : nat;
  IsFinished : bool
}.

(** [Application::Impl::Posted]. *)
Record Posted := mkPosted {
  window : WindowPtr;
  f : Closure
}.

(** The window systems [Application] distinguishes: the default created by
    [InitWindowSystem], and the one [AddWindow] detects by a dynamic cast. *)
Inductive WindowSystem :=
| GLFWWindowSystem
| WebRTCWindowSystem.

Inductive RunStatus := CONTINUE | DONE.

Definition RunStatus_eqb (a b : RunStatus) : bool :=
  match a, b with
  | CONTINUE, CONTINUE | DONE, DONE => true
  | _, _ => false
  end.

(** Calls that leave the Application. *)
Inductive Event :=
| EvWsInitialize                       (* window_system_->Initialize() *)
| EvWsUninitialize                     (* window_system_->Uninitialize() *)
| EvSelectBackend                      (* EngineInstance::SelectBackend(kOpenGL) *)
| EvDestroyInstance                    (* EngineInstance::DestroyInstance() *)
| EvSetMouseEventCallback
| EvSetRedrawCallback
| EvStartWebRTCServer
| EvOnResize (w : Window)
| EvShow (w : Window) (vis : bool)
| EvOnTickEvent (w : Window)
| EvUnlock                             (* unlocker.unlock() *)
| EvRelock                             (* unlocker.relock() *)
| EvWaitEventsTimeout
| EvMakeDrawContextCurrent (w : Window)
| EvPostedCall (target : WindowPtr) (g : Closure)   (* p.f() *)
| EvRestoreDrawContext (w : Window)
| EvPostRedraw (w : Window)
| EvTaskRun (t : Task)                 (* running_tasks_.back().Run() *)
| EvJoin (t : Task)                    (* ~Task(), which joins the thread *)
| EvIncrementEnd                       (* ++it executed on end() *)
| EvReleaseWindow (w : Window)         (* a shared_ptr of the destroy set dropped *)
| EvNativeAlert (msg : string).        (* ShowNativeAlert(msg) *)

(** [Application::Impl], with the one field of [Theme] the run loop reads,
    and the resource path that [rendering::EngineInstance] keeps in a static. *)
Record AppState := mkAppState {
  is_initialized_ : bool;
  window_system_ : option WindowSystem;
  font_path : string;                          (* theme_.font_path *)
  last_time_ : float;
  is_ws_initialized_ : bool;
  is_running_ : bool;
  should_quit_ : bool;
  windows_ : gset Window;
  windows_to_be_destroyed_ : gset Window;
  running_tasks_ : list Task;
  posted_ : list Posted;
  engine_resource_path : string                (* EngineInstance::GetResourcePath() *)
}.

(** The state after [Application::Application()] and the member initialisers
    of [Impl]. *)
Definition initial : AppState := {|
  is_initialized_ := false;
  window_system_ := None;
  font_path := "Roboto-Medium.ttf";
  last_time_ := 0%float;
  is_ws_initialized_ := false;
  is_running_ := false;
  should_quit_ := false;
  windows_ := ∅;
  windows_to_be_destroyed_ := ∅;
  running_tasks_ := [];
  posted_ := [];
  engine_resource_path := ""
|}.

(** What the operations read from the machine: [utility::filesystem]. *)
Record Env := mkEnv {
  GetUnixHome : string;
  files : list string;
  directories : list string
}.

Definition FileExists (env : Env) (p : string) : bool :=
  bool_decide (p ∈ files env).
Definition DirectoryExists (env : Env) (p : string) : bool :=
  bool_decide (p ∈ directories env).

(** Field updates. *)
Definition set_is_initialized_ (b : bool) (s : AppState) : AppState :=
  mkAppState b (window_system_ s) (font_path s) (last_time_ s)
    (is_ws_initialized_ s) (is_running_ s) (should_quit_ s) (windows_ s)
    (windows_to_be_destroyed_ s) (running_tasks_ s) (posted_ s)
    (engine_resource_path s).
Definition set_window_system_ (ws : option WindowSystem) (s : AppState) : AppState :=
  mkAppState (is_initialized_ s) ws (font_path s) (last_time_ s)
    (is_ws_initialized_ s) (is_running_ s) (should_quit_ s) (windows_ s)
    (windows_to_be_destroyed_ s) (running_tasks_ s) (posted_ s)
    (engine_resource_path s).
Definition set_font_path (p : string) (s : AppState) : AppState :=
  mkAppState (is_initialized_ s) (window_system_ s) p (last_time_ s)
    (is_ws_initialized_ s) (is_running_ s) (should_quit_ s) (windows_ s)
    (windows_to_be_destroyed_ s) (running_tasks_ s) (posted_ s)
    (engine_resource_path s).
Definition set_last_time_ (t : float) (s : AppState) : AppState :=
  mkAppState (is_initialized_ s) (window_system_ s) (font_path s) t
    (is_ws_initialized_ s) (is_running_ s) (should_quit_ s) (windows_ s)
    (windows_to_be_destroyed_ s) (running_tasks_ s) (posted_ s)
    (engine_resource_path s).
Definition set_is_ws_initialized_ (b : bool) (s : AppState) : AppState :=
  mkAppState (is_initialized_ s) (window_system_ s) (font_path s) (last_time_ s)
    b (is_running_ s) (should_quit_ s) (windows_ s)
    (windows_to_be_destroyed_ s) (running_tasks_ s) (posted_ s)
    (engine_resource_path s).
Definition set_is_running_ (b : bool) (s : AppState) : AppState :=
  mkAppState (is_initialized_ s) (window_system_ s) (font_path s) (last_time_ s)
    (is_ws_initialized_ s) b (should_quit_ s) (windows_ s)
    (windows_to_be_destroyed_ s) (running_tasks_ s) (posted_ s)
    (engine_resource_path s).
Definition set_should_quit_ (b : bool) (s : AppState) : AppState :=
  mkAppState (is_initialized_ s) (window_system_ s) (font_path s) (last_time_ s)
    (is_ws_initialized_ s) (is_running_ s) b (windows_ s)
    (windows_to_be_destroyed_ s) (running_tasks_ s) (posted_ s)
    (engine_resource_path s).
Definition set_windows_ (ws : gset Window) (s : AppState) : AppState :=
  mkAppState (is_initialized_ s) (window_system_ s) (font_path s) (last_time_ s)
    (is_ws_initialized_ s) (is_running_ s) (should_quit_ s) ws
    (windows_to_be_destroyed_ s) (running_tasks_ s) (posted_ s)
    (engine_resource_path s).
Definition set_windows_to_be_destroyed_ (ws : gset Window) (s : AppState) : AppState :=
  mkAppState (is_initialized_ s) (window_system_ s) (font_path s) (last_time_ s)
    (is_ws_initialized_ s) (is_running_ s) (should_quit_ s) (windows_ s)
    ws (running_tasks_ s) (posted_ s)
    (engine_resource_path s).
Definition set_running_tasks_ (ts : list Task) (s : AppState) : AppState :=
  mkAppState (is_initialized_ s) (window_system_ s) (font_path s) (last_time_ s)
    (is_ws_initialized_ s) (is_running_ s) (should_quit_ s) (windows_ s)
    (windows_to_be_destroyed_ s) ts (posted_ s)
    (engine_resource_path s).
Definition set_posted_ (ps : list Posted) (s : AppState) : AppState :=
  mkAppState (is_initialized_ s) (window_system_ s) (font_path s) (last_time_ s)
    (is_ws_initialized_ s) (is_running_ s) (should_quit_ s) (windows_ s)
    (windows_to_be_destroyed_ s) (running_tasks_ s) ps
    (engine_resource_path s).
Definition SetResourcePath (p : string) (s : AppState) : AppState :=
  mkAppState (is_initialized_ s) (window_system_ s) (font_path s) (last_time_ s)
    (is_ws_initialized_ s) (is_running_ s) (should_quit_ s) (windows_ s)
    (windows_to_be_destroyed_ s) (running_tasks_ s) (posted_ s)
    p.

(** ** The monad of the operations *)

Inductive Outcome (A : Type) :=
| Returned (a : A)
| Raised (msg : string).
Arguments Returned {A} a.
Arguments Raised {A} msg.

Definition App (A : Type) : Type := AppState → Outcome A * AppState * list Event.

Global Instance App_ret : MRet App := λ A a s, (Returned a, s, []).

Global Instance App_bind : MBind App := λ A B k m s,
  match m s with
  | (Returned a, s1, e1) =>
      match k a s1 with
      | (r, s2, e2) => (r, s2, e1 ++ e2)
      end
  | (Raised msg, s1, e1) => (Raised msg, s1, e1)
  end.

Definition get : App AppState := λ s, (Returned s, s, []).
Definition modify (g : AppState → AppState) : App unit := λ s, (Returned (), g s, []).
Definition emit (e : Event) : App unit := λ s, (Returned (), s, [e]).
Definition when (b : bool) (m : App unit) : App unit := if b then m else mret ().

(** A range-based [for] over a container already read into a list. *)
Fixpoint for_each {A} (l : list A) (body : A → App unit) : App unit :=
  match l with
  | [] => mret ()
  | x :: l' => body x;; for_each l' body
  end.

(** Projections of a run. *)
Definition outcome_of {A} (r : Outcome A * AppState * list Event) : Outcome A := r.1.1.
Definition state_of {A} (r : Outcome A * AppState * list Event) : AppState := r.1.2.
Definition events_of {A} (r : Outcome A * AppState * list Event) : list Event := r.2.

(** Modelled from the spec: [utility::LogError], which is declared in
    open3d/utility/Console.h and whose body is not in Application.cpp.  The
    design document calls the missing resource file a hard error: the call
    raises, and the statements after it do not run. *)
Definition LogError {A} (msg : string) : App A := λ s, (Raised msg, s, []).

(** [const double RUNLOOP_DELAY_SEC = 0.010;] *)
Definition RUNLOOP_DELAY_SEC : float := 0.010%float.

(** ** Environment set-up and tear-down ([Application::Impl]) *)

Definition InitWindowSystem : App unit :=
  s ← get;
  when (bool_decide (window_system_ s = None))
       (modify (set_window_system_ (Some GLFWWindowSystem)));;
  s ← get;
  when (negb (is_ws_initialized_ s))
       (emit EvWsInitialize;;
        modify (set_is_ws_initialized_ true)).

Definition PrepareForRunning : App unit :=
  InitWindowSystem;;
  emit EvSelectBackend.

Definition CleanupAfterRunning : App unit :=
  emit EvDestroyInstance;;
  s ← get;
  when (bool_decide (window_system_ s ≠ None)) (emit EvWsUninitialize);;
  modify (set_is_ws_initialized_ false).

(** [assert(!impl_->window_system_)] is compiled out of release builds. *)
Definition SetWindowSystem (ws : WindowSystem) : App unit :=
  modify (set_window_system_ (Some ws));;
  modify (set_is_ws_initialized_ false).

Definition EnableWebRTC : App unit :=
  SetWindowSystem WebRTCWindowSystem.

(** ** [Application::Initialize(const char *resource_path_)]

    The parameter is not read: the resource path is built from the home
    directory (the source marks the line "TODO: remove hard-coded path"). *)

Definition Initialize (env : Env) (resource_path_ : string) : App unit :=
  let resource_path := GetUnixHome env +:+ "/repo/Open3D/build/bin/resources" in
  PrepareForRunning;;
  s ← get;
  if is_initialized_ s then mret ()
  else
    modify (SetResourcePath resource_path);;
    let uiblit_path := resource_path +:+ "/ui_blit.filamat" in
    when (negb (FileExists env uiblit_path))
         (LogError ("Resource directory does not have Open3D resources: "
                      +:+ resource_path));;
    s ← get;
    modify (set_font_path (resource_path +:+ "/" +:+ font_path s));;
    modify (set_is_initialized_ true).

(** ** Window registry *)

(** [std::dynamic_pointer_cast<gui::WebRTCWindowSystem>(impl_->window_system_)]
    is non-null. *)
Definition is_webrtc (ws : option WindowSystem) : bool :=
  match ws with
  | Some WebRTCWindowSystem => true
  | _ => false
  end.

Definition AddWindow (w : Window) : App unit :=
  s ← get;
  when (is_webrtc (window_system_ s))
       (emit EvSetMouseEventCallback;;
        emit EvSetRedrawCallback;;
        emit EvStartWebRTCServer);;
  emit (EvOnResize w);;
  emit (EvShow w true);;
  modify (λ s, set_windows_ ({[ w ]} ∪ windows_ s) s).

(** [it->get() == window], on a raw pointer. *)
Definition same_window (p : WindowPtr) (w : Window) : bool :=
  bool_decide (p = Some w).

(** The loop of [RemoveWindow] stops at the first element whose address is
    [window]: [List.find] over the elements. *)
Definition RemoveWindow (p : WindowPtr) : App unit :=
  s ← get;
  match List.find (same_window p) (elements (windows_ s)) with
  | Some w =>
      emit (EvShow w false);;
      modify (λ s, set_windows_to_be_destroyed_
                     ({[ w ]} ∪ windows_to_be_destroyed_ s) s);;
      modify (λ s, set_windows_ (windows_ s ∖ {[ w ]}) s)
  | None => mret ()
  end;;
  s ← get;
  when (bool_decide (windows_ s = ∅)) (modify (set_should_quit_ true)).

(** ** Post queue *)

Definition PostToMainThread (p : WindowPtr) (g : Closure) : App unit :=
  modify (λ s, set_posted_ (posted_ s ++ [mkPosted p g]) s).

(** The body of the loop over [posted_] in [ProcessQueuedEvents], for a
    call [p.f()] that returns.  Calls that throw are the subject of
    [run_posted_with] below, of which this is the case without exceptions
    ([ProcessQueuedEvents_with_returns]). *)
Definition run_posted (p : Posted) : App unit :=
  s ← get;
  match window p with
  | Some w =>
      (* found: some element of windows_ has the address p.window *)
      let found := existsb (same_window (window p)) (elements (windows_ s)) in
      if found then
        emit (EvMakeDrawContextCurrent w);;
        emit (EvPostedCall (window p) (f p));;
        emit (EvRestoreDrawContext w);;
        emit (EvPostRedraw w)
      else mret ()          (* continue *)
  | None =>
      emit (EvPostedCall (window p) (f p))
  end.

(** ** Background tasks *)

(** [RunInThread(f)]: [t] is the task that [emplace_back(f)] creates. *)
Definition RunInThread (t : Task) : App unit :=
  modify (λ s, set_running_tasks_ (running_tasks_ s ++ [t]) s);;
  emit (EvTaskRun t).

(** [running_tasks_.remove_if(IsFinished)]: the removed tasks are destroyed.
    The tasks that stay keep their order.  The order in which the removed
    ones are destroyed is the library's ([std::list] implementations differ);
    the model joins them in list order and the theorems about the joins of
    this function speak of them up to permutation only. *)
Definition reap_finished : App unit :=
  s ← get;
  for_each (filter (λ t, IsFinished t = true) (running_tasks_ s))
           (λ t, emit (EvJoin t));;
  modify (set_running_tasks_
            (filter (λ t, IsFinished t = false) (running_tasks_ s))).

(** ** [Application::ProcessQueuedEvents]

    [now] is the value that [Now()] reads from the steady clock after the
    wait for native events.  The blocks of the function are named after
    the comments that introduce them in the source. *)

(** "Handle tick messages." *)
Definition handle_tick_messages (now : float) : App unit :=
  s ← get;
  when (PrimFloat.leb (0.95 * RUNLOOP_DELAY_SEC) (now - last_time_ s))
       (for_each (elements (windows_ s)) (λ w, emit (EvOnTickEvent w));;
        modify (set_last_time_ now)).

(** "Run any posted functions": the host lock is released while
    [posted_lock_] is acquired. *)
Definition run_posted_functions : App unit :=
  emit EvUnlock;;
  emit EvRelock;;
  s ← get;
  for_each (posted_ s) run_posted;;
  modify (set_posted_ []).

(** [windows_to_be_destroyed_.clear()] *)
Definition clear_windows_to_be_destroyed : App unit :=
  s ← get;
  for_each (elements (windows_to_be_destroyed_ s)) (λ w, emit (EvReleaseWindow w));;
  modify (set_windows_to_be_destroyed_ ∅).

Definition ProcessQueuedEvents (now : float) : App RunStatus :=
  emit EvUnlock;;
  emit EvWaitEventsTimeout;;
  emit EvRelock;;
  handle_tick_messages now;;
  run_posted_functions;;
  reap_finished;;
  clear_windows_to_be_destroyed;;
  s ← get;
  mret (if should_quit_ s then DONE else CONTINUE).

(** ** [Application::RunOneTick] *)

(** The loop that is meant to clear [running_tasks_]:
<<
    for (auto it = begin(); it != end(); ++it) {
        auto current = it;
        ++it;
        running_tasks_.erase(current);  // calls join()
    }
>>
    An iterator is the index of its node, [end()] being the length of the
    list.  In the body, [it] moves to the successor of [current]; once
    [current] is erased that node has the index [current].  The [++it] of
    the [for] statement then moves on once more, so the successor of every
    erased element is skipped.  When [it] is already [end()] at that point
    the increment is undefined in the C++ standard; the [std::list] of
    libstdc++, libc++ and the MSVC library is circular through its sentinel
    node, so the iterator moves to [begin()].  The model follows them and
    records the occurrence as [EvIncrementEnd].  Every round erases one
    element, so the length of the list is enough [fuel]. *)
Fixpoint erase_loop (fuel : nat) (it : nat) : App unit :=
  match fuel with
  | 0 => mret ()
  | S fuel' =>
      s ← get;
      match running_tasks_ s !! it with
      | None => mret ()                                  (* it == end() *)
      | Some t =>
          let current := it in
          emit (EvJoin t);;
          modify (set_running_tasks_ (delete current (running_tasks_ s)));;
          s ← get;
          if bool_decide (current = length (running_tasks_ s))
          then emit EvIncrementEnd;; erase_loop fuel' 0
          else erase_loop fuel' (S current)
      end
  end.

Definition newline : string := String (Ascii.ascii_of_nat 10) EmptyString.

(** The block under [if (!impl_->is_running_)]; the result is [false] when
    the block leaves [RunOneTick] with [return false]. *)
Definition start_if_needed (env : Env) : App bool :=
  s ← get;
  if negb (is_running_ s) then
    if negb (is_initialized_ s) then
      emit (EvNativeAlert
              "Internal error: Application::Initialize() was not called");;
      mret false
    else
      let resource_path := engine_resource_path s in
      if negb (DirectoryExists env resource_path) then
        emit (EvNativeAlert ("Could not find resource directory:" +:+ newline
                               +:+ "'" +:+ resource_path +:+ "' does not exist"));;
        mret false
      else if negb (FileExists env (font_path s)) then
        emit (EvNativeAlert ("Could not load UI font:" +:+ newline
                               +:+ "'" +:+ font_path s +:+ "' does not exist"));;
        mret false
      else
        PrepareForRunning;;
        modify (set_is_running_ true);;
        mret true
  else mret true.

(** "Cleanup if we are done". *)
Definition cleanup_if_done (cleanup_if_no_windows : bool) (status : RunStatus)
  : App unit :=
  when (RunStatus_eqb status DONE)
       (when cleanup_if_no_windows
             (* Clear all the running tasks. The destructor will wait for
                them to finish. *)
             (s ← get;
              erase_loop (length (running_tasks_ s)) 0;;
              modify (set_is_running_ false);;
              CleanupAfterRunning);;
        (* reset, otherwise we will be done next time, too. *)
        modify (set_should_quit_ false)).

Definition RunOneTick (env : Env) (cleanup_if_no_windows : bool) (now : float)
  : App bool :=
  (* Initialize if we have not started yet *)
  started ← start_if_needed env;
  if negb started then mret false
  else
    (* Process the events that have queued up *)
    status ← ProcessQueuedEvents now;
    cleanup_if_done cleanup_if_no_windows status;;
    mret (RunStatus_eqb status CONTINUE).

(** ** Sequences of registry operations *)

Inductive RegistryOp :=
| OpAddWindow (w : Window)
| OpRemoveWindow (w : Window).

Definition run_op (o : RegistryOp) : App unit :=
  match o with
  | OpAddWindow w => AddWindow w
  | OpRemoveWindow w => RemoveWindow (Some w)
  end.

(** The state after a computation, whatever it returned. *)
Definition exec {A} (m : App A) (s : AppState) : AppState := state_of (m s).

Definition run_ops (ops : list RegistryOp) (s : AppState) : AppState :=
  foldl (λ s o, exec (run_op o) s) s ops.

(** ** Reading event traces *)

Definition ticked (evs : list Event) : list Window :=
  omap (λ e, match e with EvOnTickEvent w => Some w | _ => None end) evs.

Definition called (evs : list Event) : list Posted :=
  omap (λ e, match e with EvPostedCall p g => Some (mkPosted p g) | _ => None end) evs.

Definition joined (evs : list Event) : list Task :=
  omap (λ e, match e with EvJoin t => Some t | _ => None end) evs.

Definition alerts (evs : list Event) : list string :=
  omap (λ e, match e with EvNativeAlert m => Some m | _ => None end) evs.

(** ** Functions used in the statements and proofs *)

(** Unfolds the monad on a run [m s]. *)
Ltac run_app :=
  repeat (unfold mbind, mret, App_bind, App_ret, get, modify, emit, when,
            exec, outcome_of, state_of, events_of; simpl).

(** Decidable facts about closed terms. *)
Ltac decide_by_compute :=
  apply (bool_decide_unpack _); vm_compute; exact I.

(** The last statement of [RemoveWindow]. *)
Definition quit_if_empty (s : AppState) : AppState :=
  if bool_decide (windows_ s = ∅) then set_should_quit_ true s else s.

(** No [AddWindow] of the sequence is given a window that is waiting in
    [windows_to_be_destroyed_] when it is called. *)
Fixpoint adds_no_pending (ops : list RegistryOp) (s : AppState) : bool :=
  match ops with
  | [] => true
  | o :: ops' =>
      match o with
      | OpAddWindow w => bool_decide (w ∉ windows_to_be_destroyed_ s)
      | OpRemoveWindow _ => true
      end && adds_no_pending ops' (exec (run_op o) s)
  end.

(** The test of "Handle tick messages". *)
Definition tick_due (now : float) (s : AppState) : bool :=
  PrimFloat.leb (0.95 * RUNLOOP_DELAY_SEC) (now - last_time_ s).

(** The calls that one entry of [posted_] gives rise to. *)
Definition posted_events (ws : gset Window) (p : Posted) : list Event :=
  match window p with
  | Some w =>
      if bool_decide (w ∈ ws)
      then [EvMakeDrawContextCurrent w; EvPostedCall (Some w) (f p);
            EvRestoreDrawContext w; EvPostRedraw w]
      else []
  | None => [EvPostedCall None (f p)]
  end.

(** The state that one pass of [ProcessQueuedEvents] leaves. *)
Definition state_after_events (now : float) (s : AppState) : AppState :=
  set_windows_to_be_destroyed_ ∅
    (set_running_tasks_ (filter (λ t, IsFinished t = false) (running_tasks_ s))
       (set_posted_ []
          (if tick_due now s then set_last_time_ now s else s))).

(** The calls of one pass of [ProcessQueuedEvents], in program order. *)
Definition calls_of_events (now : float) (s : AppState) : list Event :=
  [EvUnlock; EvWaitEventsTimeout; EvRelock]
  ++ (if tick_due now s then map EvOnTickEvent (elements (windows_ s)) else [])
  ++ [EvUnlock; EvRelock]
  ++ concat (map (posted_events (windows_ s)) (posted_ s))
  ++ map EvJoin (filter (λ t, IsFinished t = true) (running_tasks_ s))
  ++ map EvReleaseWindow (elements (windows_to_be_destroyed_ s)).

(** The test that keeps an entry of [posted_]: no target window, or a
    target that is in [windows_]. *)
Definition still_exists (ws : gset Window) (p : Posted) : bool :=
  match window p with
  | Some w => bool_decide (w ∈ ws)
  | None => true
  end.

(** [p.window] is null. *)
Definition no_target (p : Posted) : bool :=
  match window p with
  | Some _ => false
  | None => true
  end.

(** The state that [PrepareForRunning] leaves. *)
Definition prepared (s : AppState) : AppState :=
  let s1 := if bool_decide (window_system_ s = None)
            then set_window_system_ (Some GLFWWindowSystem) s else s in
  if negb (is_ws_initialized_ s1) then set_is_ws_initialized_ true s1 else s1.

(** The calls of [PrepareForRunning]. *)
Definition prepare_calls (s : AppState) : list Event :=
  (if negb (is_ws_initialized_ s) then [EvWsInitialize] else [])
  ++ [EvSelectBackend].

(** The local [resource_path] of [Initialize]. *)
Definition hard_coded_resource_path (env : Env) : string :=
  GetUnixHome env +:+ "/repo/Open3D/build/bin/resources".

(** A task list of even length, read two by two. *)
Definition flatten_pairs (ps : list (Task * Task)) : list Task :=
  concat (map (λ ab, [ab.1; ab.2]) ps).

(** ** Further operations of [Application] *)

(** [Application::VerifyIsInitialized]; the warning that precedes the error
    is a log line only. *)
Definition VerifyIsInitialized : App unit :=
  s ← get;
  if is_initialized_ s then mret ()
  else LogError ("gui::Initialize() must be called before creating a window "
                   +:+ "or UI element.").

(** [Application::GetWindowUIDs] and [Application::GetWindowByUID].
    [GetUID] is [Window::GetUID]; the loops run over [windows_] in its
    iteration order, and [GetWindowByUID] returns at the first match. *)
Definition GetWindowUIDs (GetUID : Window → string) : App (list string) :=
  s ← get;
  mret (map GetUID (elements (windows_ s))).

Definition GetWindowByUID (GetUID : Window → string) (uid : string)
  : App (option Window) :=
  s ← get;
  mret (List.find (λ w, bool_decide (GetUID w = uid)) (elements (windows_ s))).

(** [Application::Quit]:
<<
    while (!impl_->windows_.empty()) {
        RemoveWindow(impl_->windows_.begin()->get());
    }
>>
    [begin()] is the first element in iteration order.  Every round removes
    one window, so the size of [windows_] is enough fuel. *)
Fixpoint quit_loop (fuel : nat) : App unit :=
  match fuel with
  | 0 => mret ()
  | S fuel' =>
      s ← get;
      match elements (windows_ s) with
      | [] => mret ()                       (* windows_.empty() *)
      | w :: _ => RemoveWindow (Some w);; quit_loop fuel'
      end
  end.

Definition Quit : App unit :=
  s ← get;
  quit_loop (size (windows_ s)).

(** Calls that the operations below make in addition to those of [Event]. *)
Inductive Call :=
| Core (e : Event)
| CallDestroyWindow (w : Window)               (* w->DestroyWindow() *)
| CallOnMenuItemSelected (w : Window) (item : nat)
| CallSetNeedsLayout (w : Window).

(** [Application::OnTerminate].  None of its parts raises; the state is
    passed along explicitly. *)
Definition OnTerminate (s : AppState) : AppState * list Call :=
  let s1 := exec Quit s in
  let e1 := events_of (Quit s) in
  let destroyed := map CallDestroyWindow (elements (windows_to_be_destroyed_ s1)) in
  let s2 := exec clear_windows_to_be_destroyed s1 in
  let e2 := events_of (clear_windows_to_be_destroyed s1) in
  let s3 := exec CleanupAfterRunning s2 in
  let e3 := events_of (CleanupAfterRunning s2) in
  (s3, map Core e1 ++ destroyed ++ map Core e2 ++ map Core e3).

(** [Application::OnMenuItemSelected]: the loop returns at the first window
    for which [Window::IsActiveWindow] holds.  The state is not changed. *)
Definition OnMenuItemSelected (IsActiveWindow : Window → bool) (itemId : nat)
    (s : AppState) : list Call :=
  match List.find IsActiveWindow (elements (windows_ s)) with
  | Some w => [CallOnMenuItemSelected w itemId; CallSetNeedsLayout w;
               Core (EvPostRedraw w)]
  | None => []
  end.

(** ** [FindResourcePath]

    The build without [__APPLE__].  [cwd] is what
    [utility::filesystem::GetWorkingDirectory] returns; [argv] is [None] for
    a null pointer and has at least [argc] entries otherwise. *)

Definition backslash : Ascii.ascii := Ascii.ascii_of_nat 92.
Definition slash : Ascii.ascii := Ascii.ascii_of_nat 47.
Definition colon : Ascii.ascii := Ascii.ascii_of_nat 58.

(** "Convert backslash (Windows) to forward slash". *)
Fixpoint convert_backslash (s : string) : string :=
  match s with
  | EmptyString => EmptyString
  | String c s' =>
      String (if Ascii.eqb c backslash then slash else c) (convert_backslash s')
  end.

(** [s.rfind(c)]: the last position of [c], [None] being [npos]. *)
Fixpoint rfind (c : Ascii.ascii) (s : string) : option nat :=
  match s with
  | EmptyString => None
  | String a s' =>
      match rfind c s' with
      | Some i => Some (S i)
      | None => if Ascii.eqb a c then Some 0 else None
      end
  end.

(** [s.substr(0, n)], where [npos] takes the whole string. *)
Definition substr0 (s : string) (n : option nat) : string :=
  match n with
  | Some n => String.substring 0 n s
  | None => s
  end.

(** [s[i] == c]; [s[s.size()]] is the null character. *)
Definition char_is (s : string) (i : nat) (c : Ascii.ascii) : bool :=
  match String.get i s with
  | Some a => Ascii.eqb a c
  | None => false
  end.

Definition is_absolute (argv0 : string) : bool :=
  char_is argv0 0 slash
  || (Nat.ltb 3 (String.length argv0)
      && char_is argv0 1 colon && char_is argv0 2 slash).

Definition FindResourcePath (env : Env) (cwd : string)
    (argc : nat) (argv : option (list string)) : string :=
  let argv0 :=
    match argv with
    | Some args => if Nat.eqb argc 0 then "" else nth 0 args ""
    | None => ""
    end in
  let argv0 := convert_backslash argv0 in
  (* Chop off the process name *)
  let last_slash := rfind slash argv0 in
  let path := substr0 argv0 last_slash in
  let path :=
    if is_absolute argv0 then path
    else cwd +:+ "/" +:+ path          (* relative path: prepend working directory *)
  in
  let resource_path := path +:+ "/resources" in
  if negb (DirectoryExists env resource_path)
  then path +:+ "/../resources"        (* building with Xcode *)
  else resource_path.

(** Reading the calls of the further operations. *)
Definition hidden (evs : list Event) : list Window :=
  omap (λ e, match e with EvShow w false => Some w | _ => None end) evs.

Definition destroyed (cs : list Call) : list Window :=
  omap (λ c, match c with CallDestroyWindow w => Some w | _ => None end) cs.

Definition menu_receivers (cs : list Call) : list Window :=
  omap (λ c, match c with CallOnMenuItemSelected w _ => Some w | _ => None end) cs.

(** The state that [Quit] leaves. *)
Definition after_quit (s : AppState) : AppState :=
  set_should_quit_ (if bool_decide (windows_ s = ∅) then should_quit_ s else true)
    (set_windows_ ∅
       (set_windows_to_be_destroyed_ (windows_ s ∪ windows_to_be_destroyed_ s) s)).

(** The state that [OnTerminate] leaves. *)
Definition after_terminate (s : AppState) : AppState :=
  set_is_ws_initialized_ false (set_windows_to_be_destroyed_ ∅ (after_quit s)).

(** The calls that set up or tear down the window system and the rendering
    engine. *)
Definition env_calls (evs : list Event) : list Event :=
  omap (λ e, match e with
             | EvWsInitialize | EvWsUninitialize
             | EvSelectBackend | EvDestroyInstance => Some e
             | _ => None
             end) evs.

(** [c] occurs in [s]. *)
Fixpoint has_char (c : Ascii.ascii) (s : string) : bool :=
  match s with
  | EmptyString => false
  | String a s' => Ascii.eqb a c || has_char c s'
  end.

(** ** Posted closures that throw

    A [std::function] may throw, and nothing in Application.cpp catches an
    exception: it leaves the loop over [posted_], [ProcessQueuedEvents] and
    [RunOneTick].  [throws g] is [Some msg] when the call of the closure [g]
    throws (with [msg] what the exception says) and [None] when it
    returns. *)

Definition throw {A} (msg : string) : App A := λ s, (Raised msg, s, []).

(** [p.f();] *)
Definition call_posted (throws : Closure → option string) (p : Posted) : App unit :=
  emit (EvPostedCall (window p) (f p));;
  match throws (f p) with
  | Some msg => throw msg
  | None => mret ()
  end.

Definition run_posted_with (throws : Closure → option string) (p : Posted)
  : App unit :=
  s ← get;
  match window p with
  | Some w =>
      let found := existsb (same_window (window p)) (elements (windows_ s)) in
      if found then
        emit (EvMakeDrawContextCurrent w);;
        call_posted throws p;;
        emit (EvRestoreDrawContext w);;
        emit (EvPostRedraw w)
      else mret ()          (* continue *)
  | None =>
      call_posted throws p
  end.

Definition run_posted_functions_with (throws : Closure → option string) : App unit :=
  emit EvUnlock;;
  emit EvRelock;;
  s ← get;
  for_each (posted_ s) (run_posted_with throws);;
  modify (set_posted_ []).

Definition ProcessQueuedEvents_with (throws : Closure → option string)
    (now : float) : App RunStatus :=
  emit EvUnlock;;
  emit EvWaitEventsTimeout;;
  emit EvRelock;;
  handle_tick_messages now;;
  run_posted_functions_with throws;;
  reap_finished;;
  clear_windows_to_be_destroyed;;
  s ← get;
  mret (if should_quit_ s then DONE else CONTINUE).

(** The calls that an entry makes when its closure throws. *)
Definition thrown_events (p : Posted) : list Event :=
  match window p with
  | Some w => [EvMakeDrawContextCurrent w; EvPostedCall (Some w) (f p)]
  | None => [EvPostedCall None (f p)]
  end.

(** No closure that a pass over [l] calls, with [ws] the active windows,
    throws. *)
Definition none_throws (throws : Closure → option string) (ws : gset Window)
    (l : list Posted) : Prop :=
  ∀ p, p ∈ l → still_exists ws p = true → throws (f p) = None.

(** An application that has been initialized on a machine with a complete
    resource directory, has been given the window [1] and has taken one
    step: it is running, with a window system. *)
Definition example_env : Env :=
  mkEnv "/home/user"
    ["/home/user/repo/Open3D/build/bin/resources/ui_blit.filamat";
     "/home/user/repo/Open3D/build/bin/resources/Roboto-Medium.ttf"]
    ["/home/user/repo/Open3D/build/bin/resources"].

Definition running_example : AppState :=
  exec (RunOneTick example_env true 0.010)
    (exec (AddWindow 1%positive)
       (exec (Initialize example_env "/home/user/repo/Open3D/build/bin/resources")
          initial)).

(** ** Histories of calls

    The public operations that change the state, and the state that a
    sequence of them leaves when applied to a new application. *)
Inductive ApiCall :=
| ApiInitialize (env : Env) (resource_path_ : string)
| ApiSetWindowSystem (ws : WindowSystem)
| ApiAddWindow (w : Window)
| ApiRemoveWindow (p : WindowPtr)
| ApiQuit
| ApiOnTerminate
| ApiRunOneTick (env : Env) (cleanup_if_no_windows : bool) (now : float)
| ApiPostToMainThread (p : WindowPtr) (g : Closure)
| ApiRunInThread (t : Task).

Definition api_exec (c : ApiCall) (s : AppState) : AppState :=
  match c with
  | ApiInitialize env path => exec (Initialize env path) s
  | ApiSetWindowSystem ws => exec (SetWindowSystem ws) s
  | ApiAddWindow w => exec (AddWindow w) s
  | ApiRemoveWindow p => exec (RemoveWindow p) s
  | ApiQuit => exec Quit s
  | ApiOnTerminate => (OnTerminate s).1
  | ApiRunOneTick env cleanup now => exec (RunOneTick env cleanup now) s
  | ApiPostToMainThread p g => exec (PostToMainThread p g) s
  | ApiRunInThread t => exec (RunInThread t) s
  end.

Definition after_calls (calls : list ApiCall) : AppState :=
  foldl (λ s c, api_exec c s) initial calls.

(** * Properties *)

(** ** Running the monad *)

(** A loop whose body only makes calls: the state is untouched and the
    calls of the rounds follow one another. *)
Lemma for_each_calls {A} (body : A → App unit) (ev : AppState → A → list Event) :
  (∀ x s, body x s = (Returned (), s, ev s x)) →
  ∀ l s, for_each l body s = (Returned (), s, concat (map (ev s) l)).
Proof.
  intros Hbody l s. induction l as [|x l IH]; [reflexivity|].
  simpl. unfold mbind, App_bind. rewrite Hbody, IH. reflexivity.
Qed.

Lemma for_each_emit {A} (e : A → Event) (l : list A) (s : AppState) :
  for_each l (λ x, emit (e x)) s = (Returned (), s, map e l).
Proof.
  rewrite (for_each_calls _ (λ _ x, [e x])) by reflexivity.
  f_equal. induction l as [|x l IH]; simpl; [reflexivity | by rewrite IH].
Qed.

(** ** The registry loops agree with set membership *)

Lemma same_window_Some (w w' : Window) : same_window (Some w) w' = bool_decide (w = w').
Proof. unfold same_window. apply bool_decide_ext. split; congruence. Qed.

Lemma find_same_window_absent (p : WindowPtr) (ws : gset Window) :
  (∀ w, p = Some w → w ∉ ws) →
  List.find (same_window p) (elements ws) = None.
Proof.
  intros Habs.
  destruct (List.find _ _) as [w|] eqn:Hfind; [|reflexivity].
  apply find_some in Hfind as [Hin Heq].
  unfold same_window in Heq. apply bool_decide_eq_true in Heq.
  exfalso. apply (Habs w Heq). apply elem_of_elements, list_elem_of_In, Hin.
Qed.

Lemma find_same_window_present (w : Window) (ws : gset Window) :
  w ∈ ws →
  List.find (same_window (Some w)) (elements ws) = Some w.
Proof.
  intros Hin.
  destruct (List.find _ _) as [w'|] eqn:Hfind.
  - apply find_some in Hfind as [_ Heq].
    rewrite same_window_Some in Heq. apply bool_decide_eq_true in Heq.
    by subst.
  - exfalso. apply elem_of_elements, list_elem_of_In in Hin.
    pose proof (find_none _ _ Hfind w Hin) as Hno.
    rewrite same_window_Some in Hno. by apply bool_decide_eq_false in Hno.
Qed.

Lemma existsb_same_window (w : Window) (ws : gset Window) :
  existsb (same_window (Some w)) (elements ws) = bool_decide (w ∈ ws).
Proof.
  destruct (existsb _ _) eqn:Hex; symmetry.
  - apply existsb_exists in Hex as (w' & Hin & Heq).
    rewrite same_window_Some in Heq. apply bool_decide_eq_true in Heq. subst w'.
    apply bool_decide_eq_true, elem_of_elements, list_elem_of_In, Hin.
  - apply bool_decide_eq_false. intros Hin.
    apply elem_of_elements, list_elem_of_In in Hin.
    assert (existsb (same_window (Some w)) (elements ws) = true) as Ht.
    { apply existsb_exists. exists w. split; [done|].
      rewrite same_window_Some. by apply bool_decide_eq_true. }
    congruence.
Qed.

(** ** What the registry operations do to the state *)

Lemma AddWindow_run (w : Window) (s : AppState) :
  ∃ evs, AddWindow w s
         = (Returned (), set_windows_ ({[ w ]} ∪ windows_ s) s, evs).
Proof.
  unfold AddWindow. run_app. destruct (is_webrtc _); run_app; eauto.
Qed.

Lemma RemoveWindow_absent_run (p : WindowPtr) (s : AppState) :
  (∀ w, p = Some w → w ∉ windows_ s) →
  RemoveWindow p s = (Returned (), quit_if_empty s, []).
Proof.
  intros Habs. unfold RemoveWindow, quit_if_empty. run_app.
  rewrite (find_same_window_absent _ _ Habs). run_app.
  destruct (bool_decide _); reflexivity.
Qed.

Lemma RemoveWindow_present_run (w : Window) (s : AppState) :
  w ∈ windows_ s →
  RemoveWindow (Some w) s
  = (Returned (),
     quit_if_empty
       (set_windows_ (windows_ s ∖ {[ w ]})
          (set_windows_to_be_destroyed_ ({[ w ]} ∪ windows_to_be_destroyed_ s) s)),
     [EvShow w false]).
Proof.
  intros Hin. unfold RemoveWindow, quit_if_empty. run_app.
  rewrite (find_same_window_present _ _ Hin). run_app.
  destruct (bool_decide _); reflexivity.
Qed.

Lemma quit_if_empty_windows (s : AppState) :
  windows_ (quit_if_empty s) = windows_ s
  ∧ windows_to_be_destroyed_ (quit_if_empty s) = windows_to_be_destroyed_ s.
Proof. unfold quit_if_empty. destruct (bool_decide _); done. Qed.

(** C10. [RemoveWindow] on a pointer that is the address of no active
    window (a null pointer included) returns normally, hides nothing and
    leaves [windows_] and [windows_to_be_destroyed_] as they are; it still
    sets [should_quit_] when [windows_] is empty at the call, and leaves the
    flag alone when it is not. *)
Theorem RemoveWindow_not_active (p : WindowPtr) (s : AppState) :
  (∀ w, p = Some w → w ∉ windows_ s) →
  outcome_of (RemoveWindow p s) = Returned ()
  ∧ events_of (RemoveWindow p s) = []
  ∧ windows_ (exec (RemoveWindow p) s) = windows_ s
  ∧ windows_to_be_destroyed_ (exec (RemoveWindow p) s) = windows_to_be_destroyed_ s
  ∧ (windows_ s = ∅ → should_quit_ (exec (RemoveWindow p) s) = true)
  ∧ (windows_ s ≠ ∅ → should_quit_ (exec (RemoveWindow p) s) = should_quit_ s).
Proof.
  intros Habs. unfold exec. rewrite (RemoveWindow_absent_run _ _ Habs).
  unfold outcome_of, state_of, events_of; simpl.
  destruct (quit_if_empty_windows s) as [Hw Hd].
  repeat split; try done.
  - intros Hempty. unfold quit_if_empty. by rewrite bool_decide_eq_true_2.
  - intros Hne. unfold quit_if_empty. by rewrite bool_decide_eq_false_2.
Qed.

Lemma RemoveWindow_not_active_witness :
  (∀ w, Some 2%positive = Some w → w ∉ windows_ initial)
  ∧ windows_ (exec (RemoveWindow (Some 2%positive)) initial) = ∅
  ∧ should_quit_ (exec (RemoveWindow (Some 2%positive)) initial) = true.
Proof.
  assert (∀ w, Some 2%positive = Some w → w ∉ windows_ initial) as Habs.
  { intros w _. simpl. apply not_elem_of_empty. }
  split; [exact Habs|].
  destruct (RemoveWindow_not_active (Some 2%positive) initial Habs)
    as (_ & _ & Hw & _ & Hq & _).
  split; [exact Hw | apply Hq; reflexivity].
Defined.

(** ** Sequences of [AddWindow] and [RemoveWindow] *)

Lemma AddWindow_sets (w : Window) (s : AppState) :
  windows_ (exec (AddWindow w) s) = {[ w ]} ∪ windows_ s
  ∧ windows_to_be_destroyed_ (exec (AddWindow w) s) = windows_to_be_destroyed_ s.
Proof.
  destruct (AddWindow_run w s) as [evs Hrun].
  unfold exec, state_of. rewrite Hrun. done.
Qed.

Lemma RemoveWindow_sets (w : Window) (s : AppState) :
  windows_ (exec (RemoveWindow (Some w)) s) = windows_ s ∖ {[ w ]}
  ∧ windows_to_be_destroyed_ (exec (RemoveWindow (Some w)) s)
    = (if bool_decide (w ∈ windows_ s)
       then {[ w ]} ∪ windows_to_be_destroyed_ s
       else windows_to_be_destroyed_ s).
Proof.
  unfold exec, state_of. case_bool_decide as Hin.
  - rewrite (RemoveWindow_present_run _ _ Hin). simpl.
    destruct (quit_if_empty_windows
                (set_windows_ (windows_ s ∖ {[ w ]})
                   (set_windows_to_be_destroyed_
                      ({[ w ]} ∪ windows_to_be_destroyed_ s) s))) as [-> ->].
    done.
  - rewrite RemoveWindow_absent_run by (intros ? [= <-]; done). simpl.
    destruct (quit_if_empty_windows s) as [-> ->].
    split; [|done]. apply leibniz_equiv. set_solver.
Qed.

Lemma run_op_pending_mono (o : RegistryOp) (s : AppState) :
  windows_to_be_destroyed_ s ⊆ windows_to_be_destroyed_ (exec (run_op o) s).
Proof.
  destruct o as [w|w]; simpl.
  - by destruct (AddWindow_sets w s) as [_ ->].
  - destruct (RemoveWindow_sets w s) as [_ ->].
    case_bool_decide; set_solver.
Qed.

Lemma run_ops_pending_mono (ops : list RegistryOp) (s : AppState) :
  windows_to_be_destroyed_ s ⊆ windows_to_be_destroyed_ (run_ops ops s).
Proof.
  revert s. induction ops as [|o ops IH]; intros s; simpl; [done|].
  etrans; [apply (run_op_pending_mono o)|apply IH].
Qed.

Lemma run_op_disjoint (o : RegistryOp) (s : AppState) :
  adds_no_pending [o] s = true →
  windows_ s ## windows_to_be_destroyed_ s →
  windows_ (exec (run_op o) s) ## windows_to_be_destroyed_ (exec (run_op o) s).
Proof.
  destruct o as [w|w]; simpl; intros Hok Hdisj.
  - destruct (AddWindow_sets w s) as [-> ->].
    rewrite andb_true_r in Hok. apply bool_decide_eq_true in Hok. set_solver.
  - destruct (RemoveWindow_sets w s) as [-> ->].
    case_bool_decide; set_solver.
Qed.

Lemma run_ops_disjoint (ops : list RegistryOp) (s : AppState) :
  adds_no_pending ops s = true →
  windows_ s ## windows_to_be_destroyed_ s →
  windows_ (run_ops ops s) ## windows_to_be_destroyed_ (run_ops ops s).
Proof.
  revert s. induction ops as [|o ops IH]; intros s; simpl; [done|].
  intros [Ho Hops]%andb_true_iff Hdisj.
  apply IH; [done|]. apply run_op_disjoint; [|done].
  simpl. by rewrite Ho.
Qed.

Lemma adds_no_pending_app (ops1 ops2 : list RegistryOp) (s : AppState) :
  adds_no_pending (ops1 ++ ops2) s
  = adds_no_pending ops1 s && adds_no_pending ops2 (run_ops ops1 s).
Proof.
  revert s. induction ops1 as [|o ops1 IH]; intros s; simpl; [done|].
  by rewrite IH, andb_assoc.
Qed.

Lemma adds_no_pending_take (k : nat) (ops : list RegistryOp) (s : AppState) :
  adds_no_pending ops s = true → adds_no_pending (take k ops) s = true.
Proof.
  intros Hok. rewrite <- (take_drop k ops), adds_no_pending_app in Hok.
  by apply andb_true_iff in Hok as [? _].
Qed.

(** C2, as stated, fails: a window that is removed and then added again
    before the destroy queue is flushed is in both sets, and has gone from
    [windows_to_be_destroyed_] back to [windows_]. *)
Lemma registry_disjoint_counterexample :
  let before := run_ops [OpAddWindow 1%positive; OpRemoveWindow 1%positive] initial in
  let after := run_ops [OpAddWindow 1%positive; OpRemoveWindow 1%positive; OpAddWindow 1%positive] initial in
  (1%positive ∈ windows_to_be_destroyed_ before ∧ 1%positive ∉ windows_ before)
  ∧ 1%positive ∈ windows_ after
  ∧ ¬ (windows_ after ## windows_to_be_destroyed_ after).
Proof.
  repeat split; decide_by_compute.
Qed.

(** C2, amended.  Start from the empty registry and run a sequence of
    [AddWindow] and [RemoveWindow] calls in which no [AddWindow] is given a
    window that is in [windows_to_be_destroyed_] at that call.  Then after
    every operation [windows_] and [windows_to_be_destroyed_] are disjoint,
    and a window that is in [windows_to_be_destroyed_] after [j] operations
    is not in [windows_] after any [k >= j] operations. *)
Theorem registry_disjoint (ops : list RegistryOp) :
  adds_no_pending ops initial = true →
  ∀ k : nat,
    windows_ (run_ops (take k ops) initial)
      ## windows_to_be_destroyed_ (run_ops (take k ops) initial)
    ∧ ∀ (j : nat) (w : Window),
        j ≤ k →
        w ∈ windows_to_be_destroyed_ (run_ops (take j ops) initial) →
        w ∉ windows_ (run_ops (take k ops) initial).
Proof.
  intros Hok k.
  assert (windows_ (run_ops (take k ops) initial)
            ## windows_to_be_destroyed_ (run_ops (take k ops) initial)) as Hdisj.
  { apply run_ops_disjoint; [by apply adds_no_pending_take|].
    simpl. apply disjoint_empty_l. }
  split; [exact Hdisj|].
  intros j w Hjk Hpend Hact.
  assert (take k ops = take j ops ++ drop j (take k ops)) as Hsplit.
  { rewrite <- (take_drop j (take k ops)) at 1.
    by rewrite take_take, Nat.min_l. }
  rewrite Hsplit in Hdisj, Hact. unfold run_ops in Hdisj, Hact.
  rewrite foldl_app in Hdisj, Hact.
  pose proof (run_ops_pending_mono (drop j (take k ops))
                (run_ops (take j ops) initial)) as Hmono.
  unfold run_ops in Hmono, Hpend. set_solver.
Qed.

Lemma registry_disjoint_witness :
  adds_no_pending [OpAddWindow 1%positive; OpAddWindow 2%positive; OpRemoveWindow 1%positive; OpRemoveWindow 3%positive]
    initial = true
  ∧ windows_ (run_ops (take 3 [OpAddWindow 1%positive; OpAddWindow 2%positive; OpRemoveWindow 1%positive;
                               OpRemoveWindow 3%positive]) initial)
      ## windows_to_be_destroyed_
           (run_ops (take 3 [OpAddWindow 1%positive; OpAddWindow 2%positive; OpRemoveWindow 1%positive;
                             OpRemoveWindow 3%positive]) initial).
Proof.
  assert (adds_no_pending
            [OpAddWindow 1%positive; OpAddWindow 2%positive; OpRemoveWindow 1%positive; OpRemoveWindow 3%positive]
            initial = true) as Hok by (vm_compute; reflexivity).
  split; [exact Hok|].
  exact (proj1 (registry_disjoint _ Hok 3)).
Defined.

(** ** What one pass of [ProcessQueuedEvents] does *)

Lemma bind_run {A B} (m : App A) (k : A → App B) (s s1 s2 : AppState)
    (a : A) (r : Outcome B) (e1 e2 : list Event) :
  m s = (Returned a, s1, e1) →
  k a s1 = (r, s2, e2) →
  (m ≫= k) s = (r, s2, e1 ++ e2).
Proof. intros Hm Hk. unfold mbind, App_bind. by rewrite Hm, Hk. Qed.

Lemma handle_tick_messages_run (now : float) (s : AppState) :
  handle_tick_messages now s
  = (Returned (),
     (if tick_due now s then set_last_time_ now s else s),
     (if tick_due now s then map EvOnTickEvent (elements (windows_ s)) else [])).
Proof.
  unfold handle_tick_messages, tick_due. run_app.
  destruct (PrimFloat.leb _ _); [|reflexivity].
  rewrite (for_each_calls _ (λ _ w, [EvOnTickEvent w])) by reflexivity.
  simpl. rewrite app_nil_r. f_equal.
  induction (elements (windows_ s)) as [|w l IH]; simpl; [done | by rewrite IH].
Qed.

Lemma run_posted_run (p : Posted) (s : AppState) :
  run_posted p s = (Returned (), s, posted_events (windows_ s) p).
Proof.
  unfold run_posted, posted_events. run_app.
  destruct (window p) as [w|]; [|reflexivity].
  rewrite existsb_same_window. destruct (bool_decide _); reflexivity.
Qed.

Lemma run_posted_functions_run (s : AppState) :
  run_posted_functions s
  = (Returned (), set_posted_ [] s,
     [EvUnlock; EvRelock] ++ concat (map (posted_events (windows_ s)) (posted_ s))).
Proof.
  unfold run_posted_functions. run_app.
  rewrite (for_each_calls _ (λ s p, posted_events (windows_ s) p))
    by apply run_posted_run.
  simpl. by rewrite app_nil_r.
Qed.

Lemma reap_finished_run (s : AppState) :
  reap_finished s
  = (Returned (),
     set_running_tasks_ (filter (λ t, IsFinished t = false) (running_tasks_ s)) s,
     map EvJoin (filter (λ t, IsFinished t = true) (running_tasks_ s))).
Proof.
  unfold reap_finished. run_app.
  rewrite (for_each_calls _ (λ _ t, [EvJoin t])) by reflexivity.
  simpl. rewrite app_nil_r. f_equal.
  induction (filter _ _) as [|t l IH]; simpl; [done | by rewrite IH].
Qed.

Lemma clear_windows_to_be_destroyed_run (s : AppState) :
  clear_windows_to_be_destroyed s
  = (Returned (), set_windows_to_be_destroyed_ ∅ s,
     map EvReleaseWindow (elements (windows_to_be_destroyed_ s))).
Proof.
  unfold clear_windows_to_be_destroyed. run_app.
  rewrite (for_each_calls _ (λ _ w, [EvReleaseWindow w])) by reflexivity.
  simpl. rewrite app_nil_r. f_equal.
  induction (elements _) as [|w l IH]; simpl; [done | by rewrite IH].
Qed.

Lemma ProcessQueuedEvents_run (now : float) (s : AppState) :
  ProcessQueuedEvents now s
  = (Returned (if should_quit_ s then DONE else CONTINUE),
     state_after_events now s,
     calls_of_events now s).
Proof.
  unfold ProcessQueuedEvents, state_after_events, calls_of_events.
  etrans.
  { eapply bind_run; [reflexivity|].
    eapply bind_run; [reflexivity|].
    eapply bind_run; [reflexivity|].
    eapply bind_run; [apply handle_tick_messages_run|].
    eapply bind_run; [apply run_posted_functions_run|].
    eapply bind_run; [apply reap_finished_run|].
    eapply bind_run; [apply clear_windows_to_be_destroyed_run|].
    reflexivity. }
  destruct (tick_due now s); simpl; by rewrite app_nil_r.
Qed.

(** ** Reading the calls of one pass *)

Lemma omap_map_none {A B C} (g : B → option C) (h : A → B) (l : list A) :
  (∀ x, g (h x) = None) → omap g (map h l) = [].
Proof.
  intros Hnone. induction l as [|x l IH]; simpl; [done|].
  by rewrite Hnone.
Qed.

Lemma omap_map_some {A B} (g : B → option A) (h : A → B) (l : list A) :
  (∀ x, g (h x) = Some x) → omap g (map h l) = l.
Proof.
  intros Hsome. induction l as [|x l IH]; simpl; [done|].
  rewrite Hsome. f_equal. exact IH.
Qed.

Lemma ticked_posted_events (ws : gset Window) (l : list Posted) :
  ticked (concat (map (posted_events ws) l)) = [].
Proof.
  unfold ticked. induction l as [|p l IH]; simpl; [done|].
  rewrite omap_app, IH, app_nil_r. unfold posted_events.
  destruct (window p); [destruct (bool_decide _)|]; reflexivity.
Qed.

Lemma called_posted_events (ws : gset Window) (l : list Posted) :
  called (concat (map (posted_events ws) l))
  = filter (λ p, still_exists ws p = true) l.
Proof.
  unfold called. induction l as [|p l IH]; simpl; [done|].
  rewrite omap_app, IH. unfold posted_events.
  rewrite filter_cons. destruct p as [[w|] g].
  - destruct (decide _) as [Hk|Hk]; unfold still_exists in Hk; simpl in *;
      destruct (bool_decide (w ∈ ws)); simpl; congruence.
  - destruct (decide _) as [Hk|Hk]; unfold still_exists in Hk; simpl in *;
      congruence.
Qed.

Lemma ticked_calls_of_events (now : float) (s : AppState) :
  ticked (calls_of_events now s)
  = if tick_due now s then elements (windows_ s) else [].
Proof.
  unfold calls_of_events, ticked. rewrite !omap_app.
  fold (ticked (concat (map (posted_events (windows_ s)) (posted_ s)))).
  rewrite ticked_posted_events.
  rewrite (omap_map_none _ EvJoin), (omap_map_none _ EvReleaseWindow) by done.
  simpl. rewrite app_nil_r.
  destruct (tick_due now s); [|done].
  by apply omap_map_some.
Qed.

Lemma called_calls_of_events (now : float) (s : AppState) :
  called (calls_of_events now s)
  = filter (λ p, still_exists (windows_ s) p = true) (posted_ s).
Proof.
  unfold calls_of_events, called. rewrite !omap_app.
  fold (called (concat (map (posted_events (windows_ s)) (posted_ s)))).
  rewrite called_posted_events.
  rewrite (omap_map_none _ EvJoin), (omap_map_none _ EvReleaseWindow) by done.
  simpl. rewrite app_nil_r.
  destruct (tick_due now s); [|done].
  by rewrite (omap_map_none _ EvOnTickEvent).
Qed.

(** C5. In a pass of [ProcessQueuedEvents] at clock reading [now], if
    [now - last_time_ >= 0.95 * RUNLOOP_DELAY_SEC] (in [double] arithmetic,
    with [RUNLOOP_DELAY_SEC] 10 ms) then the windows that receive
    [OnTickEvent] are the active windows, each once, and [last_time_]
    becomes [now]; otherwise no window receives a tick and [last_time_] is
    unchanged.  A window receives a tick if and only if the test holds and
    the window is active. *)
Theorem tick_iff_interval_elapsed (now : float) (s : AppState) :
  let due := PrimFloat.leb (0.95 * RUNLOOP_DELAY_SEC) (now - last_time_ s) in
  let r := ProcessQueuedEvents now s in
  ticked (events_of r) ≡ₚ (if due then elements (windows_ s) else [])
  ∧ NoDup (ticked (events_of r))
  ∧ (∀ w, w ∈ ticked (events_of r) ↔ due = true ∧ w ∈ windows_ s)
  ∧ last_time_ (state_of r) = (if due then now else last_time_ s).
Proof.
  intros due r. subst r. rewrite ProcessQueuedEvents_run.
  unfold events_of, state_of. cbn [fst snd].
  rewrite ticked_calls_of_events. unfold state_after_events.
  fold (tick_due now s) in due. fold due.
  destruct due eqn:Hdue; simpl.
  - split; [done|]. split; [apply NoDup_elements|]. split; [|done].
    intros w. rewrite elem_of_elements. naive_solver.
  - split; [done|]. split; [apply NoDup_nil_2|]. split; [|done].
    intros w. rewrite elem_of_nil. naive_solver.
Qed.

Example tick_after_10ms :
  ticked (events_of (ProcessQueuedEvents 0.010 (exec (AddWindow 1%positive) initial)))
  = [1%positive].
Proof. vm_compute. reflexivity. Qed.

Example no_tick_after_9ms :
  ticked (events_of (ProcessQueuedEvents 0.009 (exec (AddWindow 1%positive) initial)))
  = [].
Proof. vm_compute. reflexivity. Qed.

(** ** The post queue *)

Lemma PostToMainThread_run (p : WindowPtr) (g : Closure) (s : AppState) :
  PostToMainThread p g s
  = (Returned (), set_posted_ (posted_ s ++ [mkPosted p g]) s, []).
Proof. reflexivity. Qed.

Lemma RemoveWindow_not_in (w : Window) (s : AppState) :
  w ∉ windows_ (exec (RemoveWindow (Some w)) s).
Proof. destruct (RemoveWindow_sets w s) as [-> _]. set_solver. Qed.

(** C3. Let [w] be a window that is not in [windows_] when
    [ProcessQueuedEvents] runs (it was removed after the posting).  Then
    the pass returns normally, an entry of [posted_] with target [w] gives
    rise to no call at all (its closure is not called, no draw context is
    touched, no alert is shown), and the queue is empty afterwards. *)
Theorem posted_to_removed_window_dropped
    (now : float) (s : AppState) (w : Window) (g : Closure) :
  w ∉ windows_ s →
  mkPosted (Some w) g ∈ posted_ s →
  let r := ProcessQueuedEvents now s in
  outcome_of r = Returned (if should_quit_ s then DONE else CONTINUE)
  ∧ (EvPostedCall (Some w) g ∉ events_of r)
  ∧ (mkPosted (Some w) g ∉ called (events_of r))
  ∧ posted_events (windows_ s) (mkPosted (Some w) g) = []
  ∧ alerts (events_of r) = []
  ∧ posted_ (state_of r) = [].
Proof.
  intros Hout _ r. subst r. rewrite ProcessQueuedEvents_run.
  unfold outcome_of, events_of, state_of. cbn [fst snd].
  assert (mkPosted (Some w) g ∉ called (calls_of_events now s)) as Hnot.
  { rewrite called_calls_of_events. intros [Hk _]%list_elem_of_filter.
    unfold still_exists in Hk. simpl in Hk.
    by apply bool_decide_eq_true in Hk. }
  split; [done|]. split; [|split; [done|]].
  - intros Hin. apply Hnot. unfold called.
    apply list_elem_of_omap. by exists (EvPostedCall (Some w) g).
  - split.
    + unfold posted_events. simpl. by rewrite bool_decide_eq_false_2.
    + split; [|done].
      unfold calls_of_events, alerts. rewrite !omap_app.
      rewrite (omap_map_none _ EvJoin), (omap_map_none _ EvReleaseWindow) by done.
      assert (∀ l, omap (λ e, match e with EvNativeAlert m => Some m | _ => None end)
                     (concat (map (posted_events (windows_ s)) l)) = []) as ->.
      { induction l as [|p l IH]; simpl; [done|].
        rewrite omap_app, IH, app_nil_r. unfold posted_events.
        destruct (window p); [destruct (bool_decide _)|]; reflexivity. }
      destruct (tick_due now s); [|done].
      by rewrite (omap_map_none _ EvOnTickEvent).
Qed.

Lemma posted_to_removed_window_dropped_witness :
  let s := exec (RemoveWindow (Some 1%positive))
             (exec (PostToMainThread (Some 1%positive) 7)
                (exec (AddWindow 1%positive) initial)) in
  (1%positive ∉ windows_ s)
  ∧ mkPosted (Some 1%positive) 7 ∈ posted_ s
  ∧ (EvPostedCall (Some 1%positive) 7 ∉ events_of (ProcessQueuedEvents 0.010 s)).
Proof.
  intros s.
  assert (1%positive ∉ windows_ s) as Hout by decide_by_compute.
  assert (mkPosted (Some 1%positive) 7 ∈ posted_ s) as Hin
    by (vm_compute; apply list_elem_of_here).
  split; [exact Hout|]. split; [exact Hin|].
  exact (proj1 (proj2 (posted_to_removed_window_dropped
                         0.010 s 1%positive 7 Hout Hin))).
Defined.

(** *** When a posted closure throws *)

Lemma bind_raise {A B} (m : App A) (k : A → App B) (s s1 : AppState)
    (msg : string) (e1 : list Event) :
  m s = (Raised msg, s1, e1) → (m ≫= k) s = (Raised msg, s1, e1).
Proof. intros Hm. unfold mbind, App_bind. by rewrite Hm. Qed.

Lemma for_each_app {A} (l1 l2 : list A) (body : A → App unit) (s : AppState) :
  for_each (l1 ++ l2) body s = (for_each l1 body;; for_each l2 body) s.
Proof.
  revert s. induction l1 as [|x l1 IH]; intros s; simpl.
  - unfold mbind, App_bind, mret, App_ret.
    by destruct (for_each l2 body s) as [[r s2] e2].
  - unfold mbind, App_bind in *.
    destruct (body x s) as [[[[]|msg] s1] e1]; [|done].
    rewrite IH.
    destruct (for_each l1 body s1) as [[[[]|msg] s2] e2]; [|done].
    destruct (for_each l2 body s2) as [[r s3] e3].
    by rewrite app_assoc.
Qed.

Lemma run_posted_with_returns (throws : Closure → option string)
    (p : Posted) (s : AppState) :
  (still_exists (windows_ s) p = true → throws (f p) = None) →
  run_posted_with throws p s = (Returned (), s, posted_events (windows_ s) p).
Proof.
  intros Hret. unfold run_posted_with, call_posted, posted_events, still_exists in *.
  run_app. destruct (window p) as [w|].
  - rewrite existsb_same_window.
    destruct (bool_decide (w ∈ windows_ s)); [|reflexivity].
    run_app. by rewrite Hret.
  - by rewrite Hret.
Qed.

Lemma run_posted_with_throws (throws : Closure → option string)
    (p : Posted) (s : AppState) (msg : string) :
  still_exists (windows_ s) p = true →
  throws (f p) = Some msg →
  run_posted_with throws p s = (Raised msg, s, thrown_events p).
Proof.
  intros Hkept Hthrows.
  unfold run_posted_with, call_posted, thrown_events, still_exists in *.
  run_app. destruct (window p) as [w|].
  - rewrite existsb_same_window, Hkept. run_app. by rewrite Hthrows.
  - by rewrite Hthrows.
Qed.

Lemma for_each_run_posted_with_returns (throws : Closure → option string)
    (l : list Posted) (s : AppState) :
  none_throws throws (windows_ s) l →
  for_each l (run_posted_with throws) s
  = (Returned (), s, concat (map (posted_events (windows_ s)) l)).
Proof.
  intros Hnone. induction l as [|p l IH]; [reflexivity|].
  simpl. unfold mbind, App_bind.
  rewrite run_posted_with_returns by (apply Hnone; left).
  rewrite IH; [done|]. intros q Hq. apply Hnone. by right.
Qed.

Lemma for_each_run_posted_with_throws (throws : Closure → option string)
    (l1 l2 : list Posted) (p : Posted) (s : AppState) (msg : string) :
  none_throws throws (windows_ s) l1 →
  still_exists (windows_ s) p = true →
  throws (f p) = Some msg →
  for_each (l1 ++ p :: l2) (run_posted_with throws) s
  = (Raised msg, s,
     concat (map (posted_events (windows_ s)) l1) ++ thrown_events p).
Proof.
  intros Hnone Hkept Hthrows. rewrite for_each_app.
  eapply bind_run; [by apply for_each_run_posted_with_returns|].
  simpl. apply bind_raise. by apply run_posted_with_throws.
Qed.

Lemma ProcessQueuedEvents_with_returns (throws : Closure → option string)
    (now : float) (s : AppState) :
  none_throws throws (windows_ s) (posted_ s) →
  ProcessQueuedEvents_with throws now s = ProcessQueuedEvents now s.
Proof.
  intros Hnone. rewrite ProcessQueuedEvents_run.
  unfold ProcessQueuedEvents_with, state_after_events, calls_of_events.
  etrans.
  { eapply bind_run; [reflexivity|].
    eapply bind_run; [reflexivity|].
    eapply bind_run; [reflexivity|].
    eapply bind_run; [apply handle_tick_messages_run|].
    eapply bind_run.
    { unfold run_posted_functions_with.
      eapply bind_run; [reflexivity|].
      eapply bind_run; [reflexivity|].
      eapply bind_run; [reflexivity|].
      eapply bind_run; [|reflexivity].
      apply for_each_run_posted_with_returns. by destruct (tick_due now s). }
    eapply bind_run; [apply reap_finished_run|].
    eapply bind_run; [apply clear_windows_to_be_destroyed_run|].
    reflexivity. }
  destruct (tick_due now s); simpl; by rewrite !app_nil_r.
Qed.

Lemma ProcessQueuedEvents_with_throws (throws : Closure → option string)
    (now : float) (s : AppState) (l1 l2 : list Posted) (p : Posted) (msg : string) :
  posted_ s = l1 ++ p :: l2 →
  none_throws throws (windows_ s) l1 →
  still_exists (windows_ s) p = true →
  throws (f p) = Some msg →
  ProcessQueuedEvents_with throws now s
  = (Raised msg,
     (if tick_due now s then set_last_time_ now s else s),
     [EvUnlock; EvWaitEventsTimeout; EvRelock]
     ++ (if tick_due now s then map EvOnTickEvent (elements (windows_ s)) else [])
     ++ [EvUnlock; EvRelock]
     ++ concat (map (posted_events (windows_ s)) l1)
     ++ thrown_events p).
Proof.
  intros Hposted Hnone Hkept Hthrows. unfold ProcessQueuedEvents_with.
  etrans.
  { eapply bind_run; [reflexivity|].
    eapply bind_run; [reflexivity|].
    eapply bind_run; [reflexivity|].
    eapply bind_run; [apply handle_tick_messages_run|].
    apply bind_raise. unfold run_posted_functions_with.
    eapply bind_run; [reflexivity|].
    eapply bind_run; [reflexivity|].
    eapply bind_run; [reflexivity|].
    apply bind_raise.
    assert (posted_ (if tick_due now s then set_last_time_ now s else s)
            = l1 ++ p :: l2) as -> by (by destruct (tick_due now s)).
    apply for_each_run_posted_with_throws; by destruct (tick_due now s). }
  destruct (tick_due now s); reflexivity.
Qed.

Lemma called_thrown_events (p : Posted) : called (thrown_events p) = [p].
Proof. by destruct p as [[w|] g]. Qed.

(** C4, as stated, fails when a closure throws: the exception leaves the
    pass before [posted_.clear()], so the queue is not empty after the
    drain, and at the next drain the closure that was called before the
    throwing one is called a second time. *)
Lemma posted_called_once_counterexample :
  let throws := λ g : Closure, if Nat.eqb g 2 then Some "failed" else None in
  let s := exec (PostToMainThread nullptr 2)
             (exec (PostToMainThread nullptr 1) running_example) in
  let r1 := ProcessQueuedEvents_with throws 0.020 s in
  let r2 := ProcessQueuedEvents_with throws 0.030 (state_of r1) in
  outcome_of r1 = Raised "failed"
  ∧ called (events_of r1) = [mkPosted nullptr 1; mkPosted nullptr 2]
  ∧ posted_ (state_of r1) = [mkPosted nullptr 1; mkPosted nullptr 2]
  ∧ called (events_of r2) = [mkPosted nullptr 1; mkPosted nullptr 2].
Proof. vm_compute. repeat split. Qed.

(** C4, amended.  In a pass of [ProcessQueuedEvents] in which no closure
    that is called throws, the closures that are called are those of the
    entries of [posted_] that have no target window or a target in
    [windows_], each entry once, in the order of the queue; the entries
    without a target are all among them; the queue is empty after the pass,
    so that a second pass calls none of them again.  A closure posted with a
    null target is the last call of the next pass. *)
Theorem posted_called_once_unless_thrown
    (throws : Closure → option string) (now now' : float) (s : AppState)
    (g : Closure) :
  none_throws throws (windows_ s) (posted_ s) →
  throws g = None →
  let r := ProcessQueuedEvents_with throws now s in
  outcome_of r = Returned (if should_quit_ s then DONE else CONTINUE)
  ∧ called (events_of r) = filter (λ p, still_exists (windows_ s) p = true) (posted_ s)
  ∧ filter (λ p, no_target p = true) (called (events_of r))
    = filter (λ p, no_target p = true) (posted_ s)
  ∧ posted_ (state_of r) = []
  ∧ called (events_of (ProcessQueuedEvents_with throws now' (state_of r))) = []
  ∧ called (events_of (ProcessQueuedEvents_with throws now
                         (exec (PostToMainThread nullptr g) s)))
    = called (events_of r) ++ [mkPosted nullptr g].
Proof.
  intros Hnone Hg r. subst r.
  rewrite (ProcessQueuedEvents_with_returns throws now s Hnone).
  rewrite (ProcessQueuedEvents_with_returns throws now
             (exec (PostToMainThread nullptr g) s)).
  2:{ unfold exec, state_of. rewrite PostToMainThread_run. simpl.
      intros p [Hp|Hp]%elem_of_app Hk; [by apply Hnone|].
      apply list_elem_of_singleton in Hp. by subst p. }
  rewrite !ProcessQueuedEvents_run.
  unfold outcome_of, events_of, state_of, exec. cbn [fst snd].
  rewrite (ProcessQueuedEvents_with_returns throws now' (state_after_events now s))
    by (intros p Hp; by apply elem_of_nil in Hp).
  rewrite !ProcessQueuedEvents_run. cbn [fst snd].
  rewrite !called_calls_of_events.
  split; [done|]. split; [done|]. split; [|split; [done|split; [done|]]].
  - rewrite list_filter_filter. apply list_filter_iff.
    intros p. unfold still_exists, no_target. destruct (window p); naive_solver.
  - rewrite PostToMainThread_run. cbn [fst snd]. simpl.
    rewrite filter_app. f_equal.
Qed.

Lemma posted_called_once_unless_thrown_witness :
  let throws := λ g : Closure, if Nat.eqb g 2 then Some "failed" else None in
  let s := exec (PostToMainThread nullptr 3)
             (exec (PostToMainThread nullptr 1) running_example) in
  none_throws throws (windows_ s) (posted_ s)
  ∧ throws 4 = None
  ∧ called (events_of (ProcessQueuedEvents_with throws 0.020 s))
    = [mkPosted nullptr 1; mkPosted nullptr 3].
Proof.
  intros throws s.
  assert (none_throws throws (windows_ s) (posted_ s)) as Hnone.
  { intros p Hp _. vm_compute in Hp.
    apply elem_of_cons in Hp as [->|Hp]; [reflexivity|].
    apply list_elem_of_singleton in Hp as ->. reflexivity. }
  assert (throws 4 = None) as Hg by reflexivity.
  split; [exact Hnone|]. split; [exact Hg|].
  etrans;
    [exact (proj1 (proj2 (posted_called_once_unless_thrown
                            throws 0.020%float 0.030%float s 4 Hnone Hg)))|].
  vm_compute. reflexivity.
Defined.

(** ** One step of the run loop *)

Lemma PrepareForRunning_run (s : AppState) :
  PrepareForRunning s = (Returned (), prepared s, prepare_calls s).
Proof.
  unfold PrepareForRunning, InitWindowSystem, prepared, prepare_calls. run_app.
  destruct (bool_decide (window_system_ s = None)); simpl;
    destruct (is_ws_initialized_ s); reflexivity.
Qed.

Lemma prepared_frame (s : AppState) :
  windows_ (prepared s) = windows_ s
  ∧ should_quit_ (prepared s) = should_quit_ s
  ∧ is_running_ (prepared s) = is_running_ s
  ∧ running_tasks_ (prepared s) = running_tasks_ s.
Proof.
  unfold prepared.
  destruct (bool_decide (window_system_ s = None)); simpl;
    destruct (is_ws_initialized_ s); done.
Qed.

Lemma CleanupAfterRunning_run (s : AppState) :
  CleanupAfterRunning s
  = (Returned (), set_is_ws_initialized_ false s,
     EvDestroyInstance
       :: (if bool_decide (window_system_ s ≠ None) then [EvWsUninitialize] else [])).
Proof.
  unfold CleanupAfterRunning. run_app.
  destruct (bool_decide (window_system_ s ≠ None)); reflexivity.
Qed.

(** The erase loop returns and touches [running_tasks_] only. *)
Lemma erase_loop_run (fuel it : nat) (s : AppState) :
  ∃ ts evs, erase_loop fuel it s = (Returned (), set_running_tasks_ ts s, evs)
            ∧ alerts evs = [] ∧ ticked evs = [].
Proof.
  revert it s. induction fuel as [|fuel IH]; intros it s; simpl.
  { exists (running_tasks_ s), []. by destruct s. }
  run_app. destruct (running_tasks_ s !! it) as [t|] eqn:Hit; simpl.
  - case_bool_decide.
    + destruct (IH 0 (set_running_tasks_ (delete it (running_tasks_ s)) s))
        as (ts & evs & Hrun & Ha & Ht).
      run_app. rewrite Hrun. exists ts, (EvJoin t :: EvIncrementEnd :: evs).
      repeat split; simpl; done.
    + destruct (IH (S it) (set_running_tasks_ (delete it (running_tasks_ s)) s))
        as (ts & evs & Hrun & Ha & Ht).
      rewrite Hrun. exists ts, (EvJoin t :: evs).
      repeat split; simpl; done.
  - exists (running_tasks_ s), []. by destruct s.
Qed.

(** The length of the task list is enough fuel: more changes nothing. *)
Lemma erase_loop_fuel (fuel fuel' it : nat) (s : AppState) :
  length (running_tasks_ s) ≤ fuel →
  length (running_tasks_ s) ≤ fuel' →
  erase_loop fuel it s = erase_loop fuel' it s.
Proof.
  revert fuel' it s.
  induction fuel as [|fuel IH]; intros [|fuel'] it s Hlen Hlen'.
  - reflexivity.
  - destruct (running_tasks_ s) as [|t l] eqn:Hl; [|simpl in Hlen; lia].
    simpl. run_app. by rewrite Hl.
  - destruct (running_tasks_ s) as [|t l] eqn:Hl; [|simpl in Hlen'; lia].
    simpl. run_app. by rewrite Hl.
  - simpl. run_app.
    destruct (running_tasks_ s !! it) as [t|] eqn:Hit; [|reflexivity].
    assert (length (delete it (running_tasks_ s)) ≤ fuel
            ∧ length (delete it (running_tasks_ s)) ≤ fuel') as [Hdel Hdel'].
    { rewrite length_delete by eauto. lia. }
    simpl. case_bool_decide.
    + run_app. by rewrite (IH fuel').
    + by rewrite (IH fuel').
Qed.

Lemma cleanup_if_done_run (cleanup : bool) (status : RunStatus) (s : AppState) :
  ∃ s' evs, cleanup_if_done cleanup status s = (Returned (), s', evs)
            ∧ windows_ s' = windows_ s
            ∧ alerts evs = [] ∧ ticked evs = [].
Proof.
  unfold cleanup_if_done. destruct status; simpl.
  { exists s, []. done. }
  destruct cleanup; simpl.
  - destruct (erase_loop_run (length (running_tasks_ s)) 0 s)
      as (ts & evs & Hrun & Ha & Ht).
    eexists _, _. split.
    + eapply bind_run; [|reflexivity].
      eapply bind_run; [reflexivity|].
      eapply bind_run; [exact Hrun|].
      eapply bind_run; [reflexivity|].
      apply CleanupAfterRunning_run.
    + simpl. split; [done|].
      unfold alerts, ticked in *. rewrite !omap_app, Ha, Ht.
      destruct (bool_decide _); done.
  - eexists _, _. split; [reflexivity|done].
Qed.

Lemma start_if_needed_fails (env : Env) (s : AppState) :
  is_running_ s = false →
  is_initialized_ s = false
  ∨ DirectoryExists env (engine_resource_path s) = false
  ∨ FileExists env (font_path s) = false →
  ∃ msg, start_if_needed env s = (Returned false, s, [EvNativeAlert msg]).
Proof.
  intros Hrun Hbad. unfold start_if_needed. run_app. rewrite Hrun. simpl.
  destruct (is_initialized_ s); simpl; [|eauto].
  destruct (DirectoryExists env _); simpl; [|eauto].
  destruct (FileExists env _); simpl; [|eauto].
  naive_solver.
Qed.

Lemma start_if_needed_run (env : Env) (s : AppState) :
  ∃ b s' evs, start_if_needed env s = (Returned b, s', evs)
              ∧ windows_ s' = windows_ s
              ∧ should_quit_ s' = should_quit_ s.
Proof.
  unfold start_if_needed. run_app.
  destruct (is_running_ s); simpl; [by eexists _, _, _|].
  destruct (is_initialized_ s); simpl; [|by eexists _, _, _].
  destruct (DirectoryExists env _); simpl; [|by eexists _, _, _].
  destruct (FileExists env _); simpl; [|by eexists _, _, _].
  rewrite PrepareForRunning_run.
  destruct (prepared_frame s) as (Hw & Hq & _).
  eexists _, _, _. split; [reflexivity|]. simpl. done.
Qed.

(** A step on a state whose [should_quit_] is set reports "finished", with
    the active windows as they were. *)
Lemma RunOneTick_quit (env : Env) (cleanup : bool) (now : float) (s : AppState) :
  should_quit_ s = true →
  outcome_of (RunOneTick env cleanup now s) = Returned false
  ∧ windows_ (state_of (RunOneTick env cleanup now s)) = windows_ s.
Proof.
  intros Hquit. unfold RunOneTick.
  destruct (start_if_needed_run env s) as (b & s1 & e1 & Hstart & Hw1 & Hq1).
  destruct b; simpl.
  - destruct (cleanup_if_done_run cleanup DONE (state_after_events now s1))
      as (s2 & e2 & Hclean & Hw2 & _).
    erewrite bind_run; [| exact Hstart |].
    2:{ simpl. eapply bind_run; [apply ProcessQueuedEvents_run|].
        rewrite Hq1, Hquit.
        eapply bind_run; [exact Hclean|reflexivity]. }
    unfold outcome_of, state_of. simpl. split; [done|].
    rewrite Hw2. unfold state_after_events. simpl.
    by destruct (tick_due now s1).
  - erewrite bind_run; [| exact Hstart | reflexivity].
    unfold outcome_of, state_of. simpl. done.
Qed.

(** C6. A step taken while [is_running_] is false, on an application that
    is not initialized, or whose resource directory does not exist, or
    whose UI font file does not exist, shows one native alert and nothing
    else, returns [false], and leaves the state as it was: [is_running_]
    stays false and no window receives a tick. *)
Theorem RunOneTick_configuration_error
    (env : Env) (cleanup : bool) (now : float) (s : AppState) :
  is_running_ s = false →
  is_initialized_ s = false
  ∨ DirectoryExists env (engine_resource_path s) = false
  ∨ FileExists env (font_path s) = false →
  let r := RunOneTick env cleanup now s in
  outcome_of r = Returned false
  ∧ (∃ msg, events_of r = [EvNativeAlert msg])
  ∧ ticked (events_of r) = []
  ∧ state_of r = s
  ∧ is_running_ (state_of r) = false.
Proof.
  intros Hrun Hbad r. subst r. unfold RunOneTick.
  destruct (start_if_needed_fails env s Hrun Hbad) as [msg Hstart].
  erewrite bind_run; [| exact Hstart | reflexivity].
  unfold outcome_of, events_of, state_of. simpl.
  split; [done|]. split; [by exists msg|]. done.
Qed.

Lemma RunOneTick_configuration_error_witness :
  let env := mkEnv "/home/user" [] [] in
  is_running_ initial = false
  ∧ (is_initialized_ initial = false
     ∨ DirectoryExists env (engine_resource_path initial) = false
     ∨ FileExists env (font_path initial) = false)
  ∧ outcome_of (RunOneTick env true 0.010 initial) = Returned false
  ∧ is_running_ (state_of (RunOneTick env true 0.010 initial)) = false.
Proof.
  intros env.
  assert (is_running_ initial = false) as Hrun by reflexivity.
  assert (is_initialized_ initial = false
          ∨ DirectoryExists env (engine_resource_path initial) = false
          ∨ FileExists env (font_path initial) = false) as Hbad
    by (left; reflexivity).
  split; [exact Hrun|]. split; [exact Hbad|].
  destruct (RunOneTick_configuration_error env true 0.010 initial Hrun Hbad)
    as (Hout & _ & _ & _ & Hstill).
  split; [exact Hout | exact Hstill].
Defined.

(** ** [Initialize] *)

Lemma Initialize_initialized (env : Env) (p : string) (s : AppState) :
  is_initialized_ s = true →
  Initialize env p s = (Returned (), prepared s, prepare_calls s).
Proof.
  intros Hinit. unfold Initialize.
  etrans.
  { eapply bind_run; [apply PrepareForRunning_run|].
    eapply bind_run; [reflexivity|].
    assert (is_initialized_ (prepared s) = true) as ->; [|reflexivity].
    unfold prepared.
    destruct (bool_decide (window_system_ s = None)); simpl;
      destruct (is_ws_initialized_ s); done. }
  by rewrite !app_nil_r.
Qed.

Lemma Initialize_first (env : Env) (p : string) (s : AppState) :
  is_initialized_ s = false →
  Initialize env p s
  = if FileExists env (hard_coded_resource_path env +:+ "/ui_blit.filamat")
    then (Returned (),
          set_is_initialized_ true
            (set_font_path (hard_coded_resource_path env +:+ "/" +:+ font_path s)
               (SetResourcePath (hard_coded_resource_path env) (prepared s))),
          prepare_calls s)
    else (Raised ("Resource directory does not have Open3D resources: "
                    +:+ hard_coded_resource_path env),
          SetResourcePath (hard_coded_resource_path env) (prepared s),
          prepare_calls s).
Proof.
  intros Hinit. unfold Initialize. fold (hard_coded_resource_path env).
  assert (is_initialized_ (prepared s) = false) as Hp.
  { unfold prepared.
    destruct (bool_decide (window_system_ s = None)); simpl;
      destruct (is_ws_initialized_ s); done. }
  assert (font_path (prepared s) = font_path s) as Hf.
  { unfold prepared.
    destruct (bool_decide (window_system_ s = None)); simpl;
      destruct (is_ws_initialized_ s); done. }
  unfold mbind at 1, App_bind at 1. rewrite PrepareForRunning_run.
  rewrite <- Hf. generalize dependent (prepared s). intros s1 Hp.
  run_app. rewrite Hp.
  destruct (FileExists env _); simpl; by rewrite ?app_nil_r.
Qed.

Lemma prepared_ready (s : AppState) :
  window_system_ (prepared s) ≠ None ∧ is_ws_initialized_ (prepared s) = true.
Proof.
  unfold prepared. case_bool_decide as Hws; simpl;
    destruct (is_ws_initialized_ s) eqn:Hi; simpl; rewrite ?Hi; done.
Qed.

Lemma prepared_configuration (s : AppState) :
  is_initialized_ (prepared s) = is_initialized_ s
  ∧ font_path (prepared s) = font_path s
  ∧ engine_resource_path (prepared s) = engine_resource_path s.
Proof.
  unfold prepared.
  destruct (bool_decide (window_system_ s = None)); simpl;
    destruct (is_ws_initialized_ s); done.
Qed.

Lemma prepared_fixed (s : AppState) :
  window_system_ s ≠ None → is_ws_initialized_ s = true →
  prepared s = s ∧ prepare_calls s = [EvSelectBackend].
Proof.
  intros Hws Hi. unfold prepared, prepare_calls.
  rewrite bool_decide_eq_false_2 by done. by rewrite Hi.
Qed.

(** C9. After an [Initialize] that returned normally, a further
    [Initialize], with any argument and on any file system, returns
    normally and leaves the whole state as it was: the font path is not
    prefixed again, the resource path is not set again and the existence of
    the resource file is not tested again.  Its only call is the renewed
    selection of the rendering backend by [PrepareForRunning].  In any
    later state of the application, which is still initialized, a further
    [Initialize] returns normally as well and leaves the font path, the
    resource path and the flag as they are. *)
Theorem Initialize_idempotent (env env' : Env) (p p' : string) (s : AppState) :
  outcome_of (Initialize env p s) = Returned () →
  let s1 := state_of (Initialize env p s) in
  is_initialized_ s1 = true
  ∧ outcome_of (Initialize env' p' s1) = Returned ()
  ∧ state_of (Initialize env' p' s1) = s1
  ∧ events_of (Initialize env' p' s1) = [EvSelectBackend]
  ∧ ∀ s2 : AppState,
      is_initialized_ s2 = true →
      outcome_of (Initialize env' p' s2) = Returned ()
      ∧ is_initialized_ (state_of (Initialize env' p' s2)) = true
      ∧ font_path (state_of (Initialize env' p' s2)) = font_path s2
      ∧ engine_resource_path (state_of (Initialize env' p' s2))
        = engine_resource_path s2.
Proof.
  intros Hok s1.
  destruct (prepared_ready s) as [Hws Hi].
  assert (is_initialized_ s1 = true ∧ window_system_ s1 ≠ None
          ∧ is_ws_initialized_ s1 = true) as (Hinit1 & Hws1 & Hi1).
  { subst s1. destruct (is_initialized_ s) eqn:Hinit.
    - rewrite Initialize_initialized by done. unfold state_of; simpl.
      split; [|done].
      destruct (prepared_configuration s) as (-> & _). done.
    - rewrite Initialize_first in Hok |- * by done.
      destruct (FileExists env _); [|discriminate Hok].
      unfold state_of; simpl. done. }
  split; [done|].
  rewrite (Initialize_initialized env' p' s1 Hinit1).
  destruct (prepared_fixed s1 Hws1 Hi1) as [-> ->].
  unfold outcome_of, state_of, events_of; simpl.
  split; [done|]. split; [done|]. split; [done|].
  intros s2 Hinit2. rewrite (Initialize_initialized env' p' s2 Hinit2). simpl.
  destruct (prepared_configuration s2) as (-> & -> & ->). done.
Qed.

Lemma Initialize_idempotent_witness :
  let env := mkEnv "/home/user"
               ["/home/user/repo/Open3D/build/bin/resources/ui_blit.filamat"] [] in
  let env' := mkEnv "/home/user" [] [] in
  outcome_of (Initialize env "/opt/res" initial) = Returned ()
  ∧ font_path (state_of (Initialize env' "/opt/res"
                           (state_of (Initialize env "/opt/res" initial))))
    = "/home/user/repo/Open3D/build/bin/resources/Roboto-Medium.ttf".
Proof.
  intros env env'.
  assert (outcome_of (Initialize env "/opt/res" initial) = Returned ()) as Hok
    by (vm_compute; reflexivity).
  split; [exact Hok|].
  destruct (Initialize_idempotent env env' "/opt/res" "/opt/res" initial Hok)
    as (_ & _ & -> & _).
  vm_compute. reflexivity.
Defined.

(** C1 fails on the code.  [Initialize] does not read its argument (the
    line marked "TODO: remove hard-coded path" in the source).  On a first
    call the bundle at the given path is complete, yet the call raises,
    because the file is looked up under the hard-coded path; and when only
    the hard-coded path has the file, a first call with another path
    succeeds and configures the resource and font paths from the hard-coded
    one. *)
Example Initialize_ignores_given_path :
  let given := "/opt/open3d/resources" in
  let hard_coded := "/home/user/repo/Open3D/build/bin/resources" in
  let env_given := mkEnv "/home/user"
                     [given +:+ "/ui_blit.filamat"; given +:+ "/Roboto-Medium.ttf"]
                     [given] in
  let env_hard := mkEnv "/home/user"
                    [hard_coded +:+ "/ui_blit.filamat"] [hard_coded] in
  (FileExists env_given (given +:+ "/ui_blit.filamat") = true
   ∧ outcome_of (Initialize env_given given initial)
     = Raised ("Resource directory does not have Open3D resources: " +:+ hard_coded)
   ∧ engine_resource_path (state_of (Initialize env_given given initial)) = hard_coded
   ∧ is_initialized_ (state_of (Initialize env_given given initial)) = false)
  ∧ (FileExists env_hard (given +:+ "/ui_blit.filamat") = false
     ∧ outcome_of (Initialize env_hard given initial) = Returned ()
     ∧ engine_resource_path (state_of (Initialize env_hard given initial)) = hard_coded
     ∧ font_path (state_of (Initialize env_hard given initial))
       = hard_coded +:+ "/Roboto-Medium.ttf").
Proof. vm_compute. repeat split. Qed.

(** The result of [Initialize] is the same for every argument. *)
Lemma Initialize_argument_unused (env : Env) (p p' : string) (s : AppState) :
  Initialize env p s = Initialize env p' s.
Proof. reflexivity. Qed.

(** ** The loop that clears the running tasks *)

(** On a list of even length the loop erases the first task of every pair
    and leaves the second one in the list; [end()] is never incremented. *)
Lemma erase_loop_pairs (ps : list (Task * Task)) (kept : list Task)
    (fuel : nat) (s : AppState) :
  length ps ≤ fuel →
  erase_loop fuel (length kept)
    (set_running_tasks_ (kept ++ flatten_pairs ps) s)
  = (Returned (), set_running_tasks_ (kept ++ map snd ps) s,
     map (λ ab, EvJoin ab.1) ps).
Proof.
  revert kept fuel. induction ps as [|[a b] ps IH]; intros kept fuel Hfuel.
  - unfold flatten_pairs. simpl. rewrite app_nil_r.
    destruct fuel as [|fuel]; simpl; [reflexivity|].
    run_app. rewrite lookup_ge_None_2 by done. reflexivity.
  - destruct fuel as [|fuel]; simpl in Hfuel; [lia|].
    unfold flatten_pairs. simpl. fold (flatten_pairs ps).
    run_app. rewrite list_lookup_middle by done. run_app.
    rewrite delete_middle.
    rewrite bool_decide_eq_false_2 by (rewrite length_app; simpl; lia).
    specialize (IH (kept ++ [b]) fuel ltac:(lia)).
    rewrite length_app, Nat.add_1_r, <- !app_assoc in IH. simpl in IH.
    unfold set_running_tasks_ in IH |- *. simpl in IH |- *.
    by rewrite IH.
Qed.

(** C7 fails on the code.  The application runs with two unfinished
    background tasks when its last window is removed.  The step that
    follows, with cleanup requested, reports "finished", joins the first
    task only, and uninitializes the environment and leaves the running
    state while the second task is still in [running_tasks_], never joined.
    No iterator is moved past the end on this input. *)
Theorem cleanup_leaves_task_running :
  let env := mkEnv "/home/user"
               ["/home/user/repo/Open3D/build/bin/resources/ui_blit.filamat";
                "/home/user/repo/Open3D/build/bin/resources/Roboto-Medium.ttf"]
               ["/home/user/repo/Open3D/build/bin/resources"] in
  let t1 := mkTask 1 false in
  let t2 := mkTask 2 false in
  let s0 := exec (RunOneTick env true 0.010)
              (exec (AddWindow 1%positive)
                 (exec (Initialize env "/home/user/repo/Open3D/build/bin/resources")
                    initial)) in
  let s1 := exec (RemoveWindow (Some 1%positive))
              (exec (RunInThread t2) (exec (RunInThread t1) s0)) in
  let r := RunOneTick env true 0.020 s1 in
  (is_running_ s1 = true ∧ should_quit_ s1 = true ∧ running_tasks_ s1 = [t1; t2])
  ∧ outcome_of r = Returned false
  ∧ joined (events_of r) = [t1]
  ∧ running_tasks_ (state_of r) = [t2]
  ∧ events_of r
    = [EvUnlock; EvWaitEventsTimeout; EvRelock; EvUnlock; EvRelock;
       EvReleaseWindow 1%positive;
       EvJoin t1; EvDestroyInstance; EvWsUninitialize]
  ∧ is_running_ (state_of r) = false
  ∧ should_quit_ (state_of r) = false.
Proof. vm_compute. repeat split. Qed.

(** * Further properties of the code *)

(** ** Looking windows up by UID *)

Lemma GetWindowByUID_run (GetUID : Window → string) (uid : string) (s : AppState) :
  GetWindowByUID GetUID uid s
  = (Returned (List.find (λ w, bool_decide (GetUID w = uid)) (elements (windows_ s))),
     s, []).
Proof. reflexivity. Qed.

Lemma find_uid_Some (GetUID : Window → string) (uid : string)
    (ws : gset Window) (w : Window) :
  List.find (λ w, bool_decide (GetUID w = uid)) (elements ws) = Some w →
  w ∈ ws ∧ GetUID w = uid.
Proof.
  intros [Hin Huid]%find_some. split.
  - by apply elem_of_elements, list_elem_of_In.
  - by apply bool_decide_eq_true in Huid.
Qed.

Lemma find_uid_None (GetUID : Window → string) (uid : string) (ws : gset Window) :
  List.find (λ w, bool_decide (GetUID w = uid)) (elements ws) = None ↔
  ∀ w, w ∈ ws → GetUID w ≠ uid.
Proof.
  split.
  - intros Hnone w Hin.
    apply elem_of_elements, list_elem_of_In in Hin.
    pose proof (find_none _ _ Hnone w Hin) as Hno. simpl in Hno.
    by apply bool_decide_eq_false in Hno.
  - intros Hall. destruct (List.find _ _) as [w|] eqn:Hfind; [|done].
    apply find_uid_Some in Hfind as [Hin Huid]. by destruct (Hall w Hin).
Qed.

(** X1. [GetWindowByUID] changes nothing and calls nothing.  A window it
    returns is active and has the UID asked for; it returns the null pointer
    exactly when no active window has that UID. *)
Theorem GetWindowByUID_sound_complete
    (GetUID : Window → string) (uid : string) (s : AppState) :
  state_of (GetWindowByUID GetUID uid s) = s
  ∧ events_of (GetWindowByUID GetUID uid s) = []
  ∧ (∀ w, outcome_of (GetWindowByUID GetUID uid s) = Returned (Some w) →
          w ∈ windows_ s ∧ GetUID w = uid)
  ∧ (outcome_of (GetWindowByUID GetUID uid s) = Returned None
     ↔ ∀ w, w ∈ windows_ s → GetUID w ≠ uid).
Proof.
  rewrite GetWindowByUID_run. unfold state_of, events_of, outcome_of. simpl.
  split; [done|]. split; [done|]. split.
  - intros w [= Hfind]. by apply find_uid_Some in Hfind.
  - rewrite <- find_uid_None. split; [by intros [= ->] | by intros ->].
Qed.

(** X2. After [AddWindow(w)], looking up the UID of [w] returns [w],
    provided no other active window has the same UID. *)
Theorem GetWindowByUID_after_AddWindow
    (GetUID : Window → string) (w : Window) (s : AppState) :
  (∀ w', w' ∈ windows_ s → GetUID w' = GetUID w → w' = w) →
  outcome_of (GetWindowByUID GetUID (GetUID w) (exec (AddWindow w) s))
  = Returned (Some w).
Proof.
  intros Huniq. rewrite GetWindowByUID_run. unfold outcome_of. simpl. f_equal.
  destruct (AddWindow_sets w s) as [Hw _].
  destruct (List.find _ _) as [w'|] eqn:Hfind.
  - apply find_uid_Some in Hfind as [Hin Huid]. rewrite Hw in Hin.
    f_equal. apply elem_of_union in Hin as [Hin|Hin].
    + by apply elem_of_singleton in Hin.
    + by apply Huniq.
  - exfalso. rewrite find_uid_None in Hfind. apply (Hfind w); [|done].
    rewrite Hw. set_solver.
Qed.

Lemma GetWindowByUID_after_AddWindow_witness :
  let GetUID := λ w : Window, if bool_decide (w = 1%positive) then "a" else "b" in
  let s := exec (AddWindow 2%positive) initial in
  (∀ w', w' ∈ windows_ s → GetUID w' = GetUID 1%positive → w' = 1%positive)
  ∧ outcome_of (GetWindowByUID GetUID "a" (exec (AddWindow 1%positive) s))
    = Returned (Some 1%positive).
Proof.
  intros GetUID s.
  assert (∀ w', w' ∈ windows_ s → GetUID w' = GetUID 1%positive → w' = 1%positive)
    as Huniq.
  { intros w' _. unfold GetUID. repeat case_bool_decide; done. }
  split; [exact Huniq|].
  exact (GetWindowByUID_after_AddWindow GetUID 1%positive s Huniq).
Defined.

(** X3. After [RemoveWindow(w)] the UID of [w] is no longer found and no
    longer listed, although the window object still exists until the
    destroy queue is flushed; this needs that no other active window has
    the same UID. *)
Theorem GetWindowByUID_after_RemoveWindow
    (GetUID : Window → string) (w : Window) (s : AppState) :
  (∀ w', w' ∈ windows_ s → GetUID w' = GetUID w → w' = w) →
  let s' := exec (RemoveWindow (Some w)) s in
  outcome_of (GetWindowByUID GetUID (GetUID w) s') = Returned None
  ∧ (∀ uids, outcome_of (GetWindowUIDs GetUID s') = Returned uids →
             GetUID w ∉ uids)
  ∧ (w ∈ windows_ s → w ∈ windows_to_be_destroyed_ s').
Proof.
  intros Huniq s'.
  assert (∀ w', w' ∈ windows_ s' → GetUID w' ≠ GetUID w) as Hnone.
  { intros w' Hin Huid. subst s'.
    destruct (RemoveWindow_sets w s) as [Hw _]. rewrite Hw in Hin.
    apply elem_of_difference in Hin as [Hin Hne].
    apply Hne, elem_of_singleton. by apply Huniq. }
  split; [|split].
  - rewrite GetWindowByUID_run. unfold outcome_of. simpl. f_equal.
    by apply find_uid_None.
  - intros uids [= <-]. intros Hin.
    apply list_elem_of_fmap in Hin as (w' & Huid & Hin).
    apply elem_of_elements in Hin. by apply (Hnone w').
  - intros Hin. subst s'. destruct (RemoveWindow_sets w s) as [_ ->].
    rewrite bool_decide_eq_true_2 by done. set_solver.
Qed.

Lemma GetWindowByUID_after_RemoveWindow_witness :
  let GetUID := λ w : Window, if bool_decide (w = 1%positive) then "a" else "b" in
  let s := exec (AddWindow 1%positive) (exec (AddWindow 2%positive) initial) in
  (∀ w', w' ∈ windows_ s → GetUID w' = GetUID 1%positive → w' = 1%positive)
  ∧ outcome_of (GetWindowByUID GetUID "a" (exec (RemoveWindow (Some 1%positive)) s))
    = Returned None.
Proof.
  intros GetUID s.
  assert (∀ w', w' ∈ windows_ s → GetUID w' = GetUID 1%positive → w' = 1%positive)
    as Huniq.
  { intros w' _. unfold GetUID. repeat case_bool_decide; done. }
  split; [exact Huniq|].
  exact (proj1 (GetWindowByUID_after_RemoveWindow GetUID 1%positive s Huniq)).
Defined.

(** X4. [GetWindowUIDs] returns one UID per active window, and a UID is in
    the list exactly when [GetWindowByUID] finds a window for it. *)
Theorem GetWindowUIDs_complete (GetUID : Window → string) (s : AppState) :
  ∃ uids,
    GetWindowUIDs GetUID s = (Returned uids, s, [])
    ∧ length uids = size (windows_ s)
    ∧ ∀ uid, uid ∈ uids
             ↔ ∃ w, outcome_of (GetWindowByUID GetUID uid s) = Returned (Some w).
Proof.
  exists (map GetUID (elements (windows_ s))).
  split; [reflexivity|]. split; [by rewrite length_map|].
  intros uid. rewrite GetWindowByUID_run. unfold outcome_of. simpl. split.
  - intros (w & Huid & Hin)%list_elem_of_fmap.
    destruct (List.find _ _) as [w'|] eqn:Hfind; [by eauto|].
    rewrite find_uid_None in Hfind. apply elem_of_elements in Hin.
    by destruct (Hfind w Hin).
  - intros [w [= Hfind]]. apply find_uid_Some in Hfind as [Hin Huid].
    apply list_elem_of_fmap. exists w. split; [done|]. by apply elem_of_elements.
Qed.

(** ** Adding and removing windows *)

Lemma AddWindow_frame (w : Window) (s : AppState) :
  should_quit_ (exec (AddWindow w) s) = should_quit_ s
  ∧ is_running_ (exec (AddWindow w) s) = is_running_ s
  ∧ posted_ (exec (AddWindow w) s) = posted_ s
  ∧ running_tasks_ (exec (AddWindow w) s) = running_tasks_ s.
Proof.
  destruct (AddWindow_run w s) as [evs Hrun].
  unfold exec, state_of. rewrite Hrun. done.
Qed.

(** X5. [RemoveWindow] of an active window [w] hides it, moves it from
    [windows_] to [windows_to_be_destroyed_] and touches no other window;
    it sets [should_quit_] if [w] was the only active window and leaves the
    flag as it was otherwise. *)
Theorem RemoveWindow_active (w : Window) (s : AppState) :
  w ∈ windows_ s →
  let r := RemoveWindow (Some w) s in
  outcome_of r = Returned ()
  ∧ events_of r = [EvShow w false]
  ∧ windows_ (state_of r) = windows_ s ∖ {[ w ]}
  ∧ windows_to_be_destroyed_ (state_of r) = {[ w ]} ∪ windows_to_be_destroyed_ s
  ∧ should_quit_ (state_of r)
    = (if bool_decide (windows_ s = {[ w ]}) then true else should_quit_ s).
Proof.
  intros Hin r. subst r. rewrite (RemoveWindow_present_run _ _ Hin).
  unfold outcome_of, events_of, state_of. cbn [fst snd].
  match goal with |- context [quit_if_empty ?x] =>
    destruct (quit_if_empty_windows x) as [-> ->]; set (s1 := x) end.
  split; [done|]. split; [done|]. split; [done|]. split; [done|].
  unfold quit_if_empty. subst s1. simpl.
  destruct (decide (windows_ s = {[ w ]})) as [Hone|Hone].
  - rewrite (bool_decide_eq_true_2 (windows_ s = {[ w ]})) by done.
    rewrite bool_decide_eq_true_2; [done|].
    rewrite Hone. apply leibniz_equiv. set_solver.
  - rewrite (bool_decide_eq_false_2 (windows_ s = {[ w ]})) by done.
    rewrite bool_decide_eq_false_2; [done|].
    intros Hempty. apply Hone. apply leibniz_equiv.
    assert (windows_ s ∖ {[ w ]} ≡ ∅) as Hequiv by (by rewrite Hempty).
    intros x. split.
    + intros Hx. destruct (decide (x = w)) as [->|Hne]; [set_solver|].
      exfalso. apply (not_elem_of_empty (C:=gset Window) x).
      apply Hequiv. set_solver.
    + intros ->%elem_of_singleton. done.
Qed.

Lemma RemoveWindow_active_witness :
  let s := exec (AddWindow 2%positive) (exec (AddWindow 1%positive) initial) in
  1%positive ∈ windows_ s
  ∧ should_quit_ (state_of (RemoveWindow (Some 1%positive) s)) = false.
Proof.
  intros s.
  assert (1%positive ∈ windows_ s) as Hin by decide_by_compute.
  split; [exact Hin|].
  destruct (RemoveWindow_active 1%positive s Hin) as (_ & _ & _ & _ & Hq).
  etrans; [exact Hq|]. vm_compute. reflexivity.
Defined.

Lemma RemoveWindow_last (w : Window) (s : AppState) :
  windows_ s = {[ w ]} →
  windows_ (exec (RemoveWindow (Some w)) s) = ∅
  ∧ should_quit_ (exec (RemoveWindow (Some w)) s) = true.
Proof.
  intros Hone.
  assert (w ∈ windows_ s) as Hin by (rewrite Hone; set_solver).
  assert (windows_ s ∖ {[ w ]} = ∅) as Hempty.
  { rewrite Hone. apply leibniz_equiv. set_solver. }
  unfold exec, state_of. rewrite (RemoveWindow_present_run _ _ Hin).
  cbn [fst snd]. unfold quit_if_empty. simpl.
  rewrite bool_decide_eq_true_2 by done. done.
Qed.



(** ** [Quit] and [OnTerminate] *)

Lemma after_quit_empty (s : AppState) :
  windows_ s = ∅ → after_quit s = s.
Proof.
  intros Hempty. unfold after_quit. rewrite bool_decide_eq_true_2 by done.
  destruct s; simpl in *. subst. by rewrite union_empty_l_L.
Qed.

Lemma elements_cons_inv (ws : gset Window) (w : Window) (rest : list Window) :
  elements ws = w :: rest →
  w ∈ ws ∧ elements (ws ∖ {[ w ]}) ≡ₚ rest ∧ size (ws ∖ {[ w ]}) = length rest.
Proof.
  intros Hel.
  assert (w ∈ ws) as Hin by (apply elem_of_elements; rewrite Hel; left).
  assert (elements (ws ∖ {[ w ]}) ≡ₚ rest) as Hperm.
  { apply (Permutation_cons_inv (a:=w)). rewrite <- Hel.
    rewrite <- elements_union_singleton by set_solver.
    apply elements_proper. intros x. destruct (decide (x = w)); set_solver. }
  split; [done|]. split; [done|].
  unfold size, set_size. simpl. by rewrite Hperm.
Qed.

Lemma quit_loop_run (fuel : nat) (s : AppState) :
  size (windows_ s) ≤ fuel →
  ∃ ws, ws ≡ₚ elements (windows_ s)
        ∧ quit_loop fuel s
          = (Returned (), after_quit s, map (λ w, EvShow w false) ws).
Proof.
  revert s. induction fuel as [|fuel IH]; intros s Hsize.
  - assert (windows_ s = ∅) as Hempty.
    { apply leibniz_equiv, size_empty_iff. lia. }
    exists []. rewrite after_quit_empty by done. rewrite Hempty, elements_empty.
    done.
  - simpl. unfold mbind at 1, App_bind at 1, get at 1.
    destruct (elements (windows_ s)) as [|w rest] eqn:Hel.
    + assert (windows_ s = ∅) as Hempty by (by apply leibniz_equiv, elements_empty_iff).
      exists []. rewrite after_quit_empty by done. done.
    + destruct (elements_cons_inv _ _ _ Hel) as (Hin & Hperm & Hsz).
      pose proof (RemoveWindow_present_run w s Hin) as Hrm.
      set (s1 := quit_if_empty
                   (set_windows_ (windows_ s ∖ {[ w ]})
                      (set_windows_to_be_destroyed_
                         ({[ w ]} ∪ windows_to_be_destroyed_ s) s))) in *.
      assert (windows_ s1 = windows_ s ∖ {[ w ]}
              ∧ windows_to_be_destroyed_ s1 = {[ w ]} ∪ windows_to_be_destroyed_ s)
        as [Hw1 Hd1].
      { subst s1. by destruct (quit_if_empty_windows
          (set_windows_ (windows_ s ∖ {[ w ]})
             (set_windows_to_be_destroyed_
                ({[ w ]} ∪ windows_to_be_destroyed_ s) s))) as [-> ->]. }
      destruct (IH s1) as (ws & Hws & Hloop).
      { rewrite Hw1, Hsz. unfold size, set_size in Hsize. simpl in Hsize.
        rewrite Hel in Hsize. simpl in Hsize. lia. }
      exists (w :: ws). split.
      { rewrite Hws, Hw1, Hperm. done. }
      simpl. erewrite bind_run; [| exact Hrm | exact Hloop ].
      simpl. f_equal. f_equal.
      assert (windows_ s ≠ ∅) as Hne by set_solver.
      unfold after_quit. rewrite (bool_decide_eq_false_2 (windows_ s = ∅)) by done.
      rewrite Hw1, Hd1.
      assert (windows_ s ∖ {[ w ]} ∪ ({[ w ]} ∪ windows_to_be_destroyed_ s)
              = windows_ s ∪ windows_to_be_destroyed_ s) as ->.
      { apply leibniz_equiv. intros x. destruct (decide (x = w)); set_solver. }
      subst s1. unfold quit_if_empty. simpl.
      destruct (bool_decide (windows_ s ∖ {[ w ]} = ∅)) eqn:Hlast; simpl.
      * reflexivity.
      * destruct s; reflexivity.
Qed.

Lemma Quit_run (s : AppState) :
  ∃ ws, ws ≡ₚ elements (windows_ s)
        ∧ Quit s = (Returned (), after_quit s, map (λ w, EvShow w false) ws).
Proof.
  destruct (quit_loop_run (size (windows_ s)) s) as (ws & Hws & Hloop); [done|].
  exists ws. split; [done|]. unfold Quit.
  erewrite bind_run; [| reflexivity | exact Hloop]. done.
Qed.

Lemma hidden_hides (ws : list Window) :
  hidden (map (λ w, EvShow w false) ws) = ws.
Proof. unfold hidden. by apply omap_map_some. Qed.

(** X7. [Quit] hides every active window once and moves all of them to
    [windows_to_be_destroyed_], leaving [windows_] empty.  It sets
    [should_quit_] if there was an active window; on an application without
    active windows it changes nothing, so the flag stays as it was. *)
Theorem Quit_removes_all_windows (s : AppState) :
  outcome_of (Quit s) = Returned ()
  ∧ windows_ (state_of (Quit s)) = ∅
  ∧ windows_to_be_destroyed_ (state_of (Quit s))
    = windows_ s ∪ windows_to_be_destroyed_ s
  ∧ should_quit_ (state_of (Quit s))
    = (if bool_decide (windows_ s = ∅) then should_quit_ s else true)
  ∧ hidden (events_of (Quit s)) ≡ₚ elements (windows_ s)
  ∧ length (events_of (Quit s)) = size (windows_ s)
  ∧ (windows_ s = ∅ → state_of (Quit s) = s).
Proof.
  destruct (Quit_run s) as (ws & Hws & ->).
  unfold outcome_of, state_of, events_of. cbn [fst snd].
  rewrite hidden_hides, length_map, Hws.
  repeat (split; [done|]). apply after_quit_empty.
Qed.

Lemma OnTerminate_run (s : AppState) :
  ∃ ws, ws ≡ₚ elements (windows_ s)
        ∧ OnTerminate s
          = (after_terminate s,
             map Core (map (λ w, EvShow w false) ws)
             ++ map CallDestroyWindow
                  (elements (windows_ s ∪ windows_to_be_destroyed_ s))
             ++ map Core (map EvReleaseWindow
                            (elements (windows_ s ∪ windows_to_be_destroyed_ s)))
             ++ map Core
                  (EvDestroyInstance
                     :: (if bool_decide (window_system_ s ≠ None)
                         then [EvWsUninitialize] else []))).
Proof.
  destruct (Quit_run s) as (ws & Hws & Hquit).
  exists ws. split; [done|]. unfold OnTerminate, exec, state_of, events_of.
  rewrite Hquit. cbn [fst snd].
  rewrite clear_windows_to_be_destroyed_run. cbn [fst snd].
  rewrite CleanupAfterRunning_run. cbn [fst snd].
  reflexivity.
Qed.

Lemma destroyed_calls (l1 l2 l3 : list Event) (ws : list Window) :
  destroyed (map Core l1 ++ map CallDestroyWindow ws ++ map Core l2 ++ map Core l3)
  = ws.
Proof.
  unfold destroyed. rewrite !omap_app.
  rewrite !(omap_map_none _ Core) by done.
  rewrite (omap_map_some _ CallDestroyWindow) by done.
  by rewrite app_nil_r.
Qed.

Lemma after_terminate_fixed (s : AppState) :
  after_terminate (after_terminate s) = after_terminate s.
Proof.
  unfold after_terminate, after_quit. simpl.
  rewrite (bool_decide_eq_true_2 (∅ = ∅)) by done.
  by rewrite union_empty_l_L.
Qed.

(** X8. [OnTerminate] leaves no window in either set: every window that
    was active or waiting to be destroyed gets [DestroyWindow] exactly
    once, and the window system is marked uninitialized; [is_running_] is
    not touched.  A second [OnTerminate] destroys no window and leaves the
    state as the first one left it. *)
Theorem OnTerminate_destroys_all_once (s : AppState) :
  let s' := (OnTerminate s).1 in
  windows_ s' = ∅
  ∧ windows_to_be_destroyed_ s' = ∅
  ∧ is_ws_initialized_ s' = false
  ∧ is_running_ s' = is_running_ s
  ∧ destroyed (OnTerminate s).2
    ≡ₚ elements (windows_ s ∪ windows_to_be_destroyed_ s)
  ∧ (OnTerminate s').1 = s'
  ∧ destroyed (OnTerminate s').2 = [].
Proof.
  intros s'. subst s'.
  destruct (OnTerminate_run s) as (ws & Hws & ->). cbn [fst snd].
  destruct (OnTerminate_run (after_terminate s)) as (ws' & Hws' & ->). cbn [fst snd].
  rewrite !destroyed_calls, after_terminate_fixed.
  repeat (split; [done|]). simpl.
  by rewrite union_empty_l_L, elements_empty.
Qed.

(** ** Native menu selections *)

(** X9. [OnMenuItemSelected] delivers the item to at most one window.  The
    receiver is an active window for which [IsActiveWindow] holds, and it is
    then marked for layout and redrawn; no call at all is made exactly when
    [IsActiveWindow] holds for no active window. *)
Theorem OnMenuItemSelected_single_receiver
    (IsActiveWindow : Window → bool) (itemId : nat) (s : AppState) :
  let cs := OnMenuItemSelected IsActiveWindow itemId s in
  length (menu_receivers cs) ≤ 1
  ∧ (∀ w, w ∈ menu_receivers cs →
          w ∈ windows_ s ∧ IsActiveWindow w = true
          ∧ cs = [CallOnMenuItemSelected w itemId; CallSetNeedsLayout w;
                  Core (EvPostRedraw w)])
  ∧ (cs = [] ↔ ∀ w, w ∈ windows_ s → IsActiveWindow w = false).
Proof.
  intros cs. subst cs. unfold OnMenuItemSelected.
  destruct (List.find _ _) as [w|] eqn:Hfind; simpl.
  - apply find_some in Hfind as [Hin Hact].
    apply list_elem_of_In, elem_of_elements in Hin.
    split; [done|]. split.
    + intros w' ->%list_elem_of_singleton. done.
    + split; [done|]. intros Hall. rewrite (Hall w Hin) in Hact. done.
  - split; [lia|]. split.
    + intros w' Hw'. by apply elem_of_nil in Hw'.
    + split; [|done]. intros _ w Hin.
      apply elem_of_elements, list_elem_of_In in Hin.
      pose proof (find_none _ _ Hfind w Hin) as Hno.
      by destruct (IsActiveWindow w).
Qed.

(** ** Steps of a running application *)

Lemma start_if_needed_running (env : Env) (s : AppState) :
  is_running_ s = true → start_if_needed env s = (Returned true, s, []).
Proof. intros Hrun. unfold start_if_needed. run_app. by rewrite Hrun. Qed.

Lemma start_if_needed_ok (env : Env) (s : AppState) :
  is_running_ s = false →
  is_initialized_ s = true →
  DirectoryExists env (engine_resource_path s) = true →
  FileExists env (font_path s) = true →
  start_if_needed env s
  = (Returned true, set_is_running_ true (prepared s), prepare_calls s).
Proof.
  intros Hrun Hinit Hdir Hfont. unfold start_if_needed. run_app.
  rewrite Hrun, Hinit, Hdir, Hfont. simpl.
  rewrite PrepareForRunning_run. simpl. by rewrite app_nil_r.
Qed.

Lemma RunOneTick_started (env : Env) (cleanup : bool) (now : float)
    (s s1 s2 : AppState) (e1 e2 : list Event) :
  start_if_needed env s = (Returned true, s1, e1) →
  cleanup_if_done cleanup (if should_quit_ s1 then DONE else CONTINUE)
    (state_after_events now s1) = (Returned (), s2, e2) →
  RunOneTick env cleanup now s
  = (Returned (negb (should_quit_ s1)), s2, e1 ++ calls_of_events now s1 ++ e2).
Proof.
  intros Hstart Hclean. unfold RunOneTick.
  etrans.
  { eapply bind_run; [exact Hstart|]. simpl.
    eapply bind_run; [apply ProcessQueuedEvents_run|].
    eapply bind_run; [exact Hclean|reflexivity]. }
  rewrite app_nil_r. by destruct (should_quit_ s1).
Qed.

Lemma RunOneTick_continue (env : Env) (cleanup : bool) (now : float) (s : AppState) :
  is_running_ s = true → should_quit_ s = false →
  RunOneTick env cleanup now s
  = (Returned true, state_after_events now s, calls_of_events now s).
Proof.
  intros Hrun Hquit.
  rewrite (RunOneTick_started env cleanup now s s (state_after_events now s) [] []).
  - by rewrite Hquit, app_nil_r.
  - by apply start_if_needed_running.
  - by rewrite Hquit.
Qed.

Lemma RunOneTick_done_no_cleanup (env : Env) (now : float) (s : AppState) :
  is_running_ s = true → should_quit_ s = true →
  RunOneTick env false now s
  = (Returned false, set_should_quit_ false (state_after_events now s),
     calls_of_events now s).
Proof.
  intros Hrun Hquit.
  rewrite (RunOneTick_started env false now s s
             (set_should_quit_ false (state_after_events now s)) [] []).
  - by rewrite Hquit, app_nil_r.
  - by apply start_if_needed_running.
  - by rewrite Hquit.
Qed.

Lemma cleanup_done_run (s : AppState) :
  ∃ ts evs,
    erase_loop (length (running_tasks_ s)) 0 s
    = (Returned (), set_running_tasks_ ts s, evs)
    ∧ cleanup_if_done true DONE s
      = (Returned (),
         set_should_quit_ false
           (set_is_ws_initialized_ false
              (set_is_running_ false (set_running_tasks_ ts s))),
         evs ++ EvDestroyInstance
               :: (if bool_decide (window_system_ s ≠ None)
                   then [EvWsUninitialize] else [])).
Proof.
  destruct (erase_loop_run (length (running_tasks_ s)) 0 s)
    as (ts & evs & Hrun & _ & _).
  exists ts, evs. split; [done|]. unfold cleanup_if_done. simpl.
  etrans.
  { eapply bind_run; [|reflexivity].
    eapply bind_run; [reflexivity|].
    eapply bind_run; [exact Hrun|].
    eapply bind_run; [reflexivity|].
    apply CleanupAfterRunning_run. }
  simpl. by rewrite app_nil_r.
Qed.

Lemma joined_calls_of_events (now : float) (s : AppState) :
  joined (calls_of_events now s)
  = filter (λ t, IsFinished t = true) (running_tasks_ s).
Proof.
  unfold calls_of_events, joined. rewrite !omap_app.
  rewrite (omap_map_some _ EvJoin), (omap_map_none _ EvReleaseWindow) by done.
  assert (∀ l, omap (λ e, match e with EvJoin t => Some t | _ => None end)
                 (concat (map (posted_events (windows_ s)) l)) = []) as ->.
  { induction l as [|p l IH]; simpl; [done|].
    rewrite omap_app, IH, app_nil_r. unfold posted_events.
    destruct (window p); [destruct (bool_decide _)|]; reflexivity. }
  simpl. rewrite app_nil_r.
  destruct (tick_due now s); [|done].
  by rewrite (omap_map_none _ EvOnTickEvent).
Qed.

(** X10. When the closure of an entry of [posted_] throws, the exception
    leaves [ProcessQueuedEvents]: the closures of the entries before it have
    been called, the throwing call is the last call of the pass (the draw
    context is not restored and no later entry is looked at), and [posted_],
    [running_tasks_], [windows_to_be_destroyed_] and [should_quit_] are left
    as they were, no task being joined. *)
Theorem ProcessQueuedEvents_closure_throws
    (throws : Closure → option string) (now : float) (s : AppState)
    (l1 l2 : list Posted) (p : Posted) (msg : string) :
  posted_ s = l1 ++ p :: l2 →
  none_throws throws (windows_ s) l1 →
  still_exists (windows_ s) p = true →
  throws (f p) = Some msg →
  let r := ProcessQueuedEvents_with throws now s in
  outcome_of r = Raised msg
  ∧ called (events_of r)
    = filter (λ q, still_exists (windows_ s) q = true) l1 ++ [p]
  ∧ last (events_of r) = Some (EvPostedCall (window p) (f p))
  ∧ posted_ (state_of r) = posted_ s
  ∧ running_tasks_ (state_of r) = running_tasks_ s
  ∧ joined (events_of r) = []
  ∧ windows_to_be_destroyed_ (state_of r) = windows_to_be_destroyed_ s
  ∧ should_quit_ (state_of r) = should_quit_ s.
Proof.
  intros Hposted Hnone Hkept Hthrows r. subst r.
  rewrite (ProcessQueuedEvents_with_throws throws now s l1 l2 p msg) by done.
  unfold outcome_of, events_of, state_of. cbn [fst snd].
  split; [done|]. split.
  { unfold called. rewrite !omap_app.
    fold (called (concat (map (posted_events (windows_ s)) l1))).
    fold (called (thrown_events p)).
    rewrite called_posted_events, called_thrown_events. simpl.
    destruct (tick_due now s); [|done].
    by rewrite (omap_map_none _ EvOnTickEvent). }
  split.
  { assert (∃ pre, thrown_events p = pre ++ [EvPostedCall (window p) (f p)])
      as [pre ->].
    { destruct p as [[w|] g]; [by exists [EvMakeDrawContextCurrent w] | by exists []]. }
    rewrite !app_assoc. apply last_snoc. }
  split; [by destruct (tick_due now s)|].
  split; [by destruct (tick_due now s)|].
  split.
  { unfold joined. rewrite !omap_app.
    assert (∀ l, omap (λ e, match e with EvJoin t => Some t | _ => None end)
                   (concat (map (posted_events (windows_ s)) l)) = []) as ->.
    { induction l as [|q l IH]; simpl; [done|].
      rewrite omap_app, IH, app_nil_r. unfold posted_events.
      destruct (window q); [destruct (bool_decide _)|]; reflexivity. }
    assert (omap (λ e, match e with EvJoin t => Some t | _ => None end)
              (thrown_events p) = []) as ->.
    { unfold thrown_events. by destruct (window p). }
    simpl. destruct (tick_due now s); [|done].
    by rewrite (omap_map_none _ EvOnTickEvent). }
  split; by destruct (tick_due now s).
Qed.

Lemma ProcessQueuedEvents_closure_throws_witness :
  let throws := λ g : Closure, if Nat.eqb g 2 then Some "failed" else None in
  let s := exec (PostToMainThread nullptr 3)
             (exec (PostToMainThread (Some 1%positive) 2)
                (exec (PostToMainThread nullptr 1) running_example)) in
  (posted_ s = [mkPosted nullptr 1] ++ mkPosted (Some 1%positive) 2
                 :: [mkPosted nullptr 3]
   ∧ none_throws throws (windows_ s) [mkPosted nullptr 1]
   ∧ still_exists (windows_ s) (mkPosted (Some 1%positive) 2) = true
   ∧ throws 2 = Some "failed")
  ∧ outcome_of (ProcessQueuedEvents_with throws 0.020 s) = Raised "failed"
  ∧ posted_ (state_of (ProcessQueuedEvents_with throws 0.020 s)) = posted_ s.
Proof.
  intros throws s.
  assert (posted_ s = [mkPosted nullptr 1] ++ mkPosted (Some 1%positive) 2
                        :: [mkPosted nullptr 3]) as H1 by (vm_compute; reflexivity).
  assert (none_throws throws (windows_ s) [mkPosted nullptr 1]) as H2.
  { intros q Hq _. apply list_elem_of_singleton in Hq as ->. reflexivity. }
  assert (still_exists (windows_ s) (mkPosted (Some 1%positive) 2) = true) as H3
    by (vm_compute; reflexivity).
  assert (throws 2 = Some "failed") as H4 by reflexivity.
  split; [by repeat split|].
  destruct (ProcessQueuedEvents_closure_throws throws 0.020%float s
              [mkPosted nullptr 1] [mkPosted nullptr 3]
              (mkPosted (Some 1%positive) 2) "failed" H1 H2 H3 H4)
    as (Hout & _ & _ & Hposted & _).
  split; [exact Hout | exact Hposted].
Defined.

(** X11. A step of a running application that does not clean up (it
    continues, or cleanup was not requested) joins the tasks whose finished
    flag is set, each once and no other, and keeps the others in
    [running_tasks_], in their order. *)
Theorem RunOneTick_reaps_finished_tasks
    (env : Env) (cleanup : bool) (now : float) (s : AppState) :
  is_running_ s = true →
  should_quit_ s = false ∨ cleanup = false →
  let r := RunOneTick env cleanup now s in
  running_tasks_ (state_of r) = filter (λ t, IsFinished t = false) (running_tasks_ s)
  ∧ joined (events_of r) ≡ₚ filter (λ t, IsFinished t = true) (running_tasks_ s)
  ∧ (∀ t, t ∈ running_tasks_ (state_of r) → IsFinished t = false).
Proof.
  intros Hrun Hcase r. subst r.
  assert (RunOneTick env cleanup now s
          = (Returned (negb (should_quit_ s)),
             (if should_quit_ s then set_should_quit_ false (state_after_events now s)
              else state_after_events now s),
             calls_of_events now s)) as ->.
  { destruct (should_quit_ s) eqn:Hquit.
    - destruct Hcase as [Hq | ->]; [done|]. by apply RunOneTick_done_no_cleanup.
    - by apply RunOneTick_continue. }
  unfold state_of, events_of. cbn [fst snd]. rewrite joined_calls_of_events.
  assert (running_tasks_
            (if should_quit_ s then set_should_quit_ false (state_after_events now s)
             else state_after_events now s)
          = filter (λ t, IsFinished t = false) (running_tasks_ s)) as ->.
  { by destruct (should_quit_ s). }
  split; [done|]. split; [done|].
  intros t Ht. by apply list_elem_of_filter in Ht as [? _].
Qed.

Lemma RunOneTick_reaps_finished_tasks_witness :
  let s := exec (RunInThread (mkTask 2 false))
             (exec (RunInThread (mkTask 1 true)) running_example) in
  is_running_ s = true
  ∧ (should_quit_ s = false ∨ true = false)
  ∧ running_tasks_ (state_of (RunOneTick example_env true 0.020 s))
    = [mkTask 2 false].
Proof.
  intros s.
  assert (is_running_ s = true) as Hrun by (vm_compute; reflexivity).
  assert (should_quit_ s = false ∨ true = false) as Hcase
    by (left; vm_compute; reflexivity).
  split; [exact Hrun|]. split; [exact Hcase|].
  etrans;
    [exact (proj1 (RunOneTick_reaps_finished_tasks
                     example_env true 0.020%float s Hrun Hcase))|].
  vm_compute. reflexivity.
Defined.

Lemma env_calls_calls_of_events (now : float) (s : AppState) :
  env_calls (calls_of_events now s) = [].
Proof.
  unfold calls_of_events, env_calls. rewrite !omap_app.
  rewrite (omap_map_none _ EvJoin), (omap_map_none _ EvReleaseWindow) by done.
  assert (∀ l, omap (λ e, match e with
                          | EvWsInitialize | EvWsUninitialize
                          | EvSelectBackend | EvDestroyInstance => Some e
                          | _ => None
                          end)
                 (concat (map (posted_events (windows_ s)) l)) = []) as ->.
  { induction l as [|p l IH]; simpl; [done|].
    rewrite omap_app, IH, app_nil_r. unfold posted_events.
    destruct (window p); [destruct (bool_decide _)|]; reflexivity. }
  simpl. destruct (tick_due now s); [|done].
  by rewrite (omap_map_none _ EvOnTickEvent).
Qed.

Lemma state_after_events_frame (now : float) (s : AppState) :
  is_initialized_ (state_after_events now s) = is_initialized_ s
  ∧ is_running_ (state_after_events now s) = is_running_ s
  ∧ is_ws_initialized_ (state_after_events now s) = is_ws_initialized_ s
  ∧ should_quit_ (state_after_events now s) = should_quit_ s
  ∧ font_path (state_after_events now s) = font_path s
  ∧ engine_resource_path (state_after_events now s) = engine_resource_path s
  ∧ window_system_ (state_after_events now s) = window_system_ s.
Proof. unfold state_after_events. simpl. by destruct (tick_due now s). Qed.

Lemma alerts_calls_of_events (now : float) (s : AppState) :
  alerts (calls_of_events now s) = [].
Proof.
  unfold calls_of_events, alerts. rewrite !omap_app.
  rewrite (omap_map_none _ EvJoin), (omap_map_none _ EvReleaseWindow) by done.
  assert (∀ l, omap (λ e, match e with EvNativeAlert m => Some m | _ => None end)
                 (concat (map (posted_events (windows_ s)) l)) = []) as ->.
  { induction l as [|p l IH]; simpl; [done|].
    rewrite omap_app, IH, app_nil_r. unfold posted_events.
    destruct (window p); [destruct (bool_decide _)|]; reflexivity. }
  simpl. destruct (tick_due now s); [|done].
  by rewrite (omap_map_none _ EvOnTickEvent).
Qed.

(** X12. When a step of a running application finds [should_quit_] set
    and cleanup is not requested, it reports "finished" but stays in the
    running state: it makes no call that tears the environment down, and
    the step after it continues. *)
Theorem RunOneTick_done_keeps_running (env : Env) (now : float) (s : AppState) :
  is_running_ s = true →
  should_quit_ s = true →
  let r := RunOneTick env false now s in
  outcome_of r = Returned false
  ∧ is_running_ (state_of r) = true
  ∧ is_ws_initialized_ (state_of r) = is_ws_initialized_ s
  ∧ env_calls (events_of r) = []
  ∧ ∀ (cleanup : bool) (now' : float),
      outcome_of (RunOneTick env cleanup now' (state_of r)) = Returned true.
Proof.
  intros Hrun Hquit r. subst r. rewrite RunOneTick_done_no_cleanup by done.
  unfold outcome_of, state_of, events_of. cbn [fst snd].
  destruct (state_after_events_frame now s) as (_ & Hr & Hi & _).
  rewrite env_calls_calls_of_events.
  split; [done|]. split; [by rewrite <- Hrun, <- Hr|]. split; [by rewrite <- Hi|].
  split; [done|]. intros cleanup now'.
  rewrite RunOneTick_continue; [done| |done].
  simpl. by rewrite <- Hrun, <- Hr.
Qed.

Lemma RunOneTick_done_keeps_running_witness :
  let env := mkEnv "/home/user" [] [] in
  let s := set_is_running_ true
             (exec (RemoveWindow (Some 1%positive))
                (exec (AddWindow 1%positive) initial)) in
  is_running_ s = true ∧ should_quit_ s = true
  ∧ outcome_of (RunOneTick env false 0.010 s) = Returned false.
Proof.
  intros env s.
  assert (is_running_ s = true) as Hrun by reflexivity.
  assert (should_quit_ s = true) as Hquit by (vm_compute; reflexivity).
  split; [exact Hrun|]. split; [exact Hquit|].
  exact (proj1 (RunOneTick_done_keeps_running env 0.010%float s Hrun Hquit)).
Defined.

(** X13. The loop can be entered again after it has finished.  When a
    step of a running application finds [should_quit_] set and cleanup is
    requested, it tears the environment down and leaves the running state.
    If the resource directory and the font file still exist, the next step
    initializes the window system and selects the rendering backend again,
    shows no alert, enters the running state and continues. *)
Theorem RunOneTick_restarts_after_cleanup
    (env : Env) (cleanup : bool) (now now' : float) (s : AppState) :
  is_running_ s = true →
  should_quit_ s = true →
  is_initialized_ s = true →
  DirectoryExists env (engine_resource_path s) = true →
  FileExists env (font_path s) = true →
  let s1 := state_of (RunOneTick env true now s) in
  let r2 := RunOneTick env cleanup now' s1 in
  is_running_ s1 = false
  ∧ is_ws_initialized_ s1 = false
  ∧ should_quit_ s1 = false
  ∧ outcome_of r2 = Returned true
  ∧ env_calls (events_of r2) = [EvWsInitialize; EvSelectBackend]
  ∧ alerts (events_of r2) = []
  ∧ is_running_ (state_of r2) = true
  ∧ is_ws_initialized_ (state_of r2) = true.
Proof.
  intros Hrun Hquit Hinit Hdir Hfont s1 r2.
  destruct (cleanup_done_run (state_after_events now s)) as (ts & evs & _ & Hclean).
  destruct (state_after_events_frame now s)
    as (Hi0 & Hr0 & Hw0 & Hq0 & Hf0 & He0 & Hs0).
  assert (s1 = set_should_quit_ false
                 (set_is_ws_initialized_ false
                    (set_is_running_ false
                       (set_running_tasks_ ts (state_after_events now s))))) as Hs1.
  { subst s1. erewrite (RunOneTick_started env true now s s);
      [| by apply start_if_needed_running | rewrite Hquit; exact Hclean ].
    reflexivity. }
  assert (is_running_ s1 = false ∧ is_ws_initialized_ s1 = false
          ∧ should_quit_ s1 = false ∧ is_initialized_ s1 = true
          ∧ font_path s1 = font_path s
          ∧ engine_resource_path s1 = engine_resource_path s)
    as (Hr1 & Hw1 & Hq1 & Hi1 & Hf1 & He1).
  { rewrite Hs1. unfold state_after_events. simpl.
    destruct (tick_due now s); simpl; done. }
  clearbody s1.
  split; [done|]. split; [done|]. split; [done|].
  assert (start_if_needed env s1
          = (Returned true, set_is_running_ true (prepared s1), prepare_calls s1))
    as Hstart.
  { apply start_if_needed_ok; [done|done| by rewrite He1 | by rewrite Hf1]. }
  destruct (prepared_frame s1) as (_ & Hpq & _ & _).
  destruct (prepared_ready s1) as [_ Hpw].
  subst r2.
  erewrite (RunOneTick_started env cleanup now' s1); [| exact Hstart |].
  2:{ simpl. rewrite Hpq, Hq1. reflexivity. }
  unfold outcome_of, state_of, events_of. cbn [fst snd].
  destruct (state_after_events_frame now' (set_is_running_ true (prepared s1)))
    as (_ & Hr2 & Hw2 & _).
  simpl should_quit_. rewrite Hpq, Hq1.
  split; [done|]. split.
  { unfold env_calls. rewrite !omap_app.
    fold (env_calls (calls_of_events now' (set_is_running_ true (prepared s1)))).
    rewrite env_calls_calls_of_events. unfold prepare_calls. rewrite Hw1. done. }
  split.
  { unfold alerts. rewrite !omap_app.
    fold (alerts (calls_of_events now' (set_is_running_ true (prepared s1)))).
    rewrite alerts_calls_of_events. unfold prepare_calls. rewrite Hw1. done. }
  split; [by rewrite Hr2|]. rewrite Hw2. simpl. exact Hpw.
Qed.

Lemma RunOneTick_restarts_after_cleanup_witness :
  let dir := "/home/user/repo/Open3D/build/bin/resources" in
  let env := mkEnv "/home/user"
               [dir +:+ "/ui_blit.filamat"; dir +:+ "/Roboto-Medium.ttf"] [dir] in
  let s := exec (RemoveWindow (Some 1%positive))
             (exec (RunOneTick env true 0.010)
                (exec (AddWindow 1%positive) (exec (Initialize env dir) initial))) in
  (is_running_ s = true ∧ should_quit_ s = true ∧ is_initialized_ s = true
   ∧ DirectoryExists env (engine_resource_path s) = true
   ∧ FileExists env (font_path s) = true)
  ∧ outcome_of (RunOneTick env true 0.030
                  (state_of (RunOneTick env true 0.020 s))) = Returned true.
Proof.
  intros dir env s.
  assert (is_running_ s = true) as H1 by (vm_compute; reflexivity).
  assert (should_quit_ s = true) as H2 by (vm_compute; reflexivity).
  assert (is_initialized_ s = true) as H3 by (vm_compute; reflexivity).
  assert (DirectoryExists env (engine_resource_path s) = true) as H4
    by (vm_compute; reflexivity).
  assert (FileExists env (font_path s) = true) as H5 by (vm_compute; reflexivity).
  split; [by repeat split|].
  destruct (RunOneTick_restarts_after_cleanup
              env true 0.020%float 0.030%float s H1 H2 H3 H4 H5)
    as (_ & _ & _ & Hout & _).
  exact Hout.
Defined.

(** ** The step after the last window is removed *)

Lemma RemoveWindow_keeps_running (p : WindowPtr) (s : AppState) :
  is_running_ (exec (RemoveWindow p) s) = is_running_ s.
Proof.
  unfold exec, state_of.
  destruct (List.find (same_window p) (elements (windows_ s))) as [w|] eqn:Hfind.
  - assert (p = Some w ∧ w ∈ windows_ s) as [-> Hin].
    { apply find_some in Hfind as [Hin Heq]. split.
      - unfold same_window in Heq. by apply bool_decide_eq_true in Heq.
      - by apply elem_of_elements, list_elem_of_In. }
    rewrite (RemoveWindow_present_run _ _ Hin). cbn [fst snd].
    unfold quit_if_empty. by destruct (bool_decide _).
  - rewrite RemoveWindow_absent_run.
    + cbn [fst snd]. unfold quit_if_empty. by destruct (bool_decide _).
    + intros w -> Hin.
      apply elem_of_elements, list_elem_of_In in Hin.
      pose proof (find_none _ _ Hfind w Hin) as Hno.
      rewrite same_window_Some in Hno. by apply bool_decide_eq_false in Hno.
Qed.



(** ** The cleanup loop, for every number of tasks *)

Lemma length_flatten_pairs (ps : list (Task * Task)) :
  length (flatten_pairs ps) = 2 * length ps.
Proof.
  unfold flatten_pairs. induction ps as [|ab ps IH]; simpl; [done|].
  rewrite IH. lia.
Qed.

Lemma pairs_or_one_more (l : list Task) :
  (∃ ps, l = flatten_pairs ps) ∨ (∃ ps t, l = flatten_pairs ps ++ [t]).
Proof.
  assert (∀ l a,
    ((∃ ps, l = flatten_pairs ps) ∨ (∃ ps t, l = flatten_pairs ps ++ [t]))
    ∧ ((∃ ps, a :: l = flatten_pairs ps)
       ∨ (∃ ps t, a :: l = flatten_pairs ps ++ [t]))) as Hboth.
  { clear l. induction l as [|b l IH]; intros a.
    - split; [left; by exists [] | right; by exists [], a].
    - destruct (IH b) as [Hl Hbl]. split; [exact Hbl|].
      destruct Hl as [[ps ->]|(ps & t & ->)].
      + left. by exists ((a, b) :: ps).
      + right. by exists ((a, b) :: ps), t. }
  destruct l as [|a l]; [left; by exists []|]. apply Hboth.
Qed.

Lemma set_running_tasks_same (s : AppState) :
  set_running_tasks_ (running_tasks_ s) s = s.
Proof. by destruct s. Qed.

Lemma erase_loop_pairs_then_one (ps : list (Task * Task)) (t : Task)
    (kept : list Task) (fuel : nat) (s : AppState) :
  S (length ps) ≤ fuel →
  ∃ ts evs,
    erase_loop fuel (length kept)
      (set_running_tasks_ (kept ++ flatten_pairs ps ++ [t]) s)
    = (Returned (), set_running_tasks_ ts s, evs)
    ∧ EvIncrementEnd ∈ evs.
Proof.
  revert kept fuel. induction ps as [|[a b] ps IH]; intros kept fuel Hfuel.
  - destruct fuel as [|fuel]; [lia|].
    unfold flatten_pairs. simpl. run_app.
    rewrite list_lookup_middle by done. run_app. rewrite delete_middle.
    rewrite bool_decide_eq_true_2 by (by rewrite app_nil_r).
    run_app.
    match goal with |- context [erase_loop fuel 0 ?x] =>
      destruct (erase_loop_run fuel 0 x) as (ts & evs & Hrun & _) end.
    rewrite Hrun.
    exists ts, (EvJoin t :: EvIncrementEnd :: evs). split; [reflexivity|].
    right. left.
  - destruct fuel as [|fuel]; simpl in Hfuel; [lia|].
    unfold flatten_pairs. simpl. fold (flatten_pairs ps).
    run_app. rewrite list_lookup_middle by done. run_app.
    rewrite delete_middle.
    rewrite bool_decide_eq_false_2 by (rewrite length_app; simpl; lia).
    destruct (IH (kept ++ [b]) fuel ltac:(lia)) as (ts & evs & Hrun & Hin).
    rewrite length_app, Nat.add_1_r, <- !app_assoc in Hrun. simpl in Hrun.
    unfold set_running_tasks_ in Hrun |- *. simpl in Hrun |- *.
    rewrite Hrun. exists ts, (EvJoin a :: evs). split; [reflexivity|].
    by right.
Qed.

(** X14. When the cleanup of a finished step meets an even number of
    tasks, its loop joins the first task of every pair and leaves the second
    one in [running_tasks_]; the environment is torn down and the running
    state left all the same. *)
Theorem cleanup_joins_every_other_task (ps : list (Task * Task)) (s : AppState) :
  running_tasks_ s = flatten_pairs ps →
  let r := cleanup_if_done true DONE s in
  outcome_of r = Returned ()
  ∧ running_tasks_ (state_of r) = map snd ps
  ∧ joined (events_of r) = map fst ps
  ∧ EvDestroyInstance ∈ events_of r
  ∧ is_running_ (state_of r) = false.
Proof.
  intros Htasks r. subst r.
  destruct (cleanup_done_run s) as (ts & evs & Hloop & ->).
  pose proof (erase_loop_pairs ps [] (length (running_tasks_ s)) s) as Hpairs.
  simpl in Hpairs. rewrite <- Htasks, set_running_tasks_same in Hpairs.
  rewrite Hpairs in Hloop
    by (rewrite Htasks, length_flatten_pairs; lia).
  injection Hloop as Hts Hevs. subst ts evs.
  unfold outcome_of, state_of, events_of. cbn [fst snd]. simpl.
  split; [done|]. split; [done|]. split.
  - unfold joined. rewrite omap_app.
    assert (∀ l : list (Task * Task),
              omap (λ e, match e with EvJoin t => Some t | _ => None end)
                (map (λ ab, EvJoin ab.1) l) = map fst l) as ->.
    { induction l as [|ab l IH]; simpl; [done|]. f_equal. exact IH. }
    simpl. destruct (bool_decide _); simpl; by rewrite app_nil_r.
  - split; [|done]. apply elem_of_app. right. left.
Qed.

Lemma cleanup_joins_every_other_task_witness :
  let t1 := mkTask 1 false in
  let t2 := mkTask 2 false in
  let s := exec (RunInThread t2) (exec (RunInThread t1) initial) in
  running_tasks_ s = flatten_pairs [(t1, t2)]
  ∧ running_tasks_ (state_of (cleanup_if_done true DONE s)) = [t2].
Proof.
  intros t1 t2 s.
  assert (running_tasks_ s = flatten_pairs [(t1, t2)]) as Htasks by reflexivity.
  split; [exact Htasks|].
  destruct (cleanup_joins_every_other_task [(t1, t2)] s Htasks) as (_ & Hkept & _).
  exact Hkept.
Defined.

(** X15. The cleanup loop increments its iterator at [end()] exactly when
    the number of tasks it meets is odd. *)
Theorem cleanup_increments_end_iff_odd (s : AppState) :
  EvIncrementEnd ∈ events_of (cleanup_if_done true DONE s)
  ↔ Nat.Odd (length (running_tasks_ s)).
Proof.
  destruct (cleanup_done_run s) as (ts & evs & Hloop & ->).
  unfold events_of. cbn [snd].
  assert (EvIncrementEnd ∈ evs ++ EvDestroyInstance
            :: (if bool_decide (window_system_ s ≠ None)
                then [EvWsUninitialize] else [])
          ↔ EvIncrementEnd ∈ evs) as ->.
  { rewrite elem_of_app. split; [|by left]. intros [?|Hin]; [done|].
    exfalso. destruct (bool_decide _);
      repeat (apply elem_of_cons in Hin as [Hin|Hin]; [discriminate|]);
      by apply elem_of_nil in Hin. }
  destruct (pairs_or_one_more (running_tasks_ s)) as [[ps Hl]|(ps & t & Hl)].
  - pose proof (erase_loop_pairs ps [] (length (running_tasks_ s)) s) as Hpairs.
    simpl in Hpairs. rewrite <- Hl, set_running_tasks_same in Hpairs.
    rewrite Hpairs in Hloop by (rewrite Hl, length_flatten_pairs; lia).
    injection Hloop as _ <-. split.
    + intros (ab & Heq & _)%list_elem_of_fmap. discriminate.
    + intros [k Hk]. rewrite Hl, length_flatten_pairs in Hk. lia.
  - destruct (erase_loop_pairs_then_one ps t [] (length (running_tasks_ s)) s)
      as (ts' & evs' & Hodd & Hin).
    { rewrite Hl, length_app, length_flatten_pairs. simpl. lia. }
    simpl in Hodd. rewrite <- Hl, set_running_tasks_same in Hodd.
    rewrite Hodd in Hloop. injection Hloop as _ <-. split; [|done].
    intros _. exists (length ps).
    rewrite Hl, length_app, length_flatten_pairs. simpl. lia.
Qed.

(** ** The window system *)

(** X16. After [PrepareForRunning] there is a window system and it is
    initialized; a window system that was already set is kept.  A second
    [PrepareForRunning] changes nothing and only selects the rendering
    backend again, so the window system is not initialized twice; after
    [CleanupAfterRunning] it is initialized anew. *)
Theorem PrepareForRunning_initializes_once (s : AppState) :
  let s1 := exec PrepareForRunning s in
  window_system_ s1 ≠ None
  ∧ is_ws_initialized_ s1 = true
  ∧ (∀ ws, window_system_ s = Some ws → window_system_ s1 = Some ws)
  ∧ PrepareForRunning s1 = (Returned (), s1, [EvSelectBackend])
  ∧ events_of (PrepareForRunning (exec CleanupAfterRunning s1))
    = [EvWsInitialize; EvSelectBackend].
Proof.
  intros s1. subst s1. unfold exec, state_of.
  rewrite PrepareForRunning_run. cbn [fst snd].
  destruct (prepared_ready s) as [Hws Hi].
  destruct (prepared_fixed (prepared s) Hws Hi) as [Hfix Hcalls].
  split; [done|]. split; [done|]. split.
  - intros ws Hsome. unfold prepared. rewrite Hsome. simpl.
    by destruct (is_ws_initialized_ s).
  - split.
    + by rewrite PrepareForRunning_run, Hfix, Hcalls.
    + rewrite CleanupAfterRunning_run. cbn [fst snd].
      by rewrite PrepareForRunning_run.
Qed.

(** X17. [EnableWebRTC] before [Initialize] makes the WebRTC window system
    the one that is initialized, and every [AddWindow] then sets the two
    callbacks and starts the server before it resizes and shows the window.
    Without it [Initialize] creates the GLFW window system and [AddWindow]
    only resizes and shows. *)
Theorem AddWindow_wires_webrtc (env : Env) (p : string) (w : Window) (s : AppState) :
  window_system_ s = None →
  let s1 := exec (Initialize env p) (exec EnableWebRTC s) in
  let s2 := exec (Initialize env p) s in
  window_system_ s1 = Some WebRTCWindowSystem
  ∧ is_ws_initialized_ s1 = true
  ∧ events_of (AddWindow w s1)
    = [EvSetMouseEventCallback; EvSetRedrawCallback; EvStartWebRTCServer;
       EvOnResize w; EvShow w true]
  ∧ window_system_ s2 = Some GLFWWindowSystem
  ∧ events_of (AddWindow w s2) = [EvOnResize w; EvShow w true].
Proof.
  intros Hnone s1 s2.
  assert (∀ s0 ws, window_system_ s0 = Some ws →
            window_system_ (exec (Initialize env p) s0) = Some ws
            ∧ is_ws_initialized_ (exec (Initialize env p) s0) = true) as Hkeep.
  { intros s0 ws Hsome. unfold exec, state_of.
    assert (window_system_ (prepared s0) = Some ws
            ∧ is_ws_initialized_ (prepared s0) = true) as [Hw Hi].
    { destruct (prepared_ready s0) as [_ Hi]. split; [|done].
      unfold prepared. rewrite Hsome. simpl. by destruct (is_ws_initialized_ s0). }
    destruct (is_initialized_ s0) eqn:Hinit.
    - by rewrite Initialize_initialized.
    - rewrite Initialize_first by done. by destruct (FileExists env _). }
  assert (window_system_ s1 = Some WebRTCWindowSystem
          ∧ is_ws_initialized_ s1 = true) as [Hw1 Hi1].
  { subst s1. by apply Hkeep. }
  assert (window_system_ s2 = Some GLFWWindowSystem) as Hw2.
  { subst s2. unfold exec, state_of.
    assert (window_system_ (prepared s) = Some GLFWWindowSystem) as Hw.
    { unfold prepared. rewrite Hnone. simpl. by destruct (is_ws_initialized_ s). }
    destruct (is_initialized_ s) eqn:Hinit.
    - by rewrite Initialize_initialized.
    - rewrite Initialize_first by done. by destruct (FileExists env _). }
  split; [done|]. split; [done|].
  unfold AddWindow, events_of. run_app. rewrite Hw1, Hw2. done.
Qed.

Lemma AddWindow_wires_webrtc_witness :
  window_system_ initial = None
  ∧ window_system_ (exec (Initialize (mkEnv "/home/user" [] []) "/opt/res")
                      (exec EnableWebRTC initial))
    = Some WebRTCWindowSystem.
Proof.
  assert (window_system_ initial = None) as Hnone by reflexivity.
  split; [exact Hnone|].
  exact (proj1 (AddWindow_wires_webrtc (mkEnv "/home/user" [] []) "/opt/res"
                  1%positive initial Hnone)).
Defined.

(** ** Initialization *)

(** X18. [VerifyIsInitialized] never changes the state.  After an
    [Initialize] it returns normally if that [Initialize] returned normally
    and raises if that [Initialize] raised; on an application that is not
    initialized it raises. *)
Theorem VerifyIsInitialized_after_Initialize (env : Env) (p : string) (s : AppState) :
  let s1 := exec (Initialize env p) s in
  state_of (VerifyIsInitialized s1) = s1
  ∧ (outcome_of (VerifyIsInitialized s1) = Returned ()
     ↔ outcome_of (Initialize env p s) = Returned ())
  ∧ (outcome_of (VerifyIsInitialized s) = Returned () ↔ is_initialized_ s = true)
  ∧ events_of (VerifyIsInitialized s1) = [].
Proof.
  intros s1.
  assert (∀ s0, VerifyIsInitialized s0
                = (if is_initialized_ s0 then Returned ()
                   else Raised ("gui::Initialize() must be called before creating "
                                  +:+ "a window or UI element."),
                   s0, [])) as Hverify.
  { intros s0. unfold VerifyIsInitialized. run_app.
    by destruct (is_initialized_ s0). }
  rewrite !Hverify. unfold outcome_of, state_of, events_of. cbn [fst snd].
  split; [done|]. split; [|split; [by destruct (is_initialized_ s)|done]].
  subst s1. unfold exec, state_of.
  destruct (is_initialized_ s) eqn:Hinit.
  - rewrite Initialize_initialized by done. cbn [fst snd].
    destruct (prepared_configuration s) as (-> & _). by rewrite Hinit.
  - rewrite Initialize_first by done.
    destruct (prepared_configuration s) as (Hp & _).
    destruct (FileExists env _); cbn [fst snd]; simpl; [done|].
    rewrite Hp, Hinit. split; discriminate.
Qed.

(** X19. An [Initialize] that raised leaves nothing behind that a later
    [Initialize] would see: the later call, on any file system, ends with
    the outcome and in the state that it would have had without the failed
    call, the font path being prefixed once. *)
Theorem Initialize_retry_after_failure
    (env env' : Env) (p p' : string) (s : AppState) :
  (∃ msg, outcome_of (Initialize env p s) = Raised msg) →
  outcome_of (Initialize env' p' (exec (Initialize env p) s))
  = outcome_of (Initialize env' p' s)
  ∧ state_of (Initialize env' p' (exec (Initialize env p) s))
    = state_of (Initialize env' p' s)
  ∧ font_path (exec (Initialize env p) s) = font_path s.
Proof.
  intros [msg Hfail].
  destruct (is_initialized_ s) eqn:Hinit.
  { rewrite Initialize_initialized in Hfail by done. discriminate Hfail. }
  unfold exec. rewrite (Initialize_first env p s Hinit) in Hfail |- *.
  destruct (FileExists env _); [discriminate Hfail|].
  unfold state_of at 1 3 4. cbn [fst snd].
  destruct (prepared_ready s) as [Hws Hi].
  destruct (prepared_configuration s) as (Hpi & Hpf & _).
  set (s1 := SetResourcePath (hard_coded_resource_path env) (prepared s)).
  assert (prepared s1 = s1) as Hfix.
  { by destruct (prepared_fixed s1 Hws Hi). }
  assert (is_initialized_ s1 = false) as Hinit1 by (subst s1; simpl; congruence).
  rewrite (Initialize_first env' p' s1 Hinit1), (Initialize_first env' p' s Hinit).
  rewrite Hfix. subst s1. simpl. rewrite Hpf.
  destruct (FileExists env' _); done.
Qed.

Lemma Initialize_retry_after_failure_witness :
  let dir := "/home/user/repo/Open3D/build/bin/resources" in
  let env := mkEnv "/home/user" [] [] in
  let env' := mkEnv "/home/user" [dir +:+ "/ui_blit.filamat"] [dir] in
  (∃ msg, outcome_of (Initialize env dir initial) = Raised msg)
  ∧ font_path (state_of (Initialize env' dir (exec (Initialize env dir) initial)))
    = dir +:+ "/Roboto-Medium.ttf".
Proof.
  intros dir env env'.
  assert (∃ msg, outcome_of (Initialize env dir initial) = Raised msg) as Hfail.
  { eexists. vm_compute. reflexivity. }
  split; [exact Hfail|].
  destruct (Initialize_retry_after_failure env env' dir dir initial Hfail)
    as (_ & Hstate & _).
  etrans; [exact (f_equal font_path Hstate)|]. vm_compute. reflexivity.
Defined.

(** ** [FindResourcePath] *)

Lemma string_app_cons (x : Ascii.ascii) (a b : string) :
  String x a +:+ b = String x (a +:+ b).
Proof. reflexivity. Qed.

Lemma string_app_assoc (a b c : string) : (a +:+ b) +:+ c = a +:+ (b +:+ c).
Proof.
  induction a as [|x a IH]; [done|]. rewrite !string_app_cons. by rewrite IH.
Qed.

Lemma convert_backslash_idem (s : string) :
  convert_backslash (convert_backslash s) = convert_backslash s.
Proof.
  induction s as [|c s IH]; simpl; [done|]. rewrite IH. f_equal.
  destruct (Ascii.eqb c backslash) eqn:Hc; [reflexivity|]. by rewrite Hc.
Qed.

Lemma convert_backslash_none (s : string) :
  has_char backslash s = false → convert_backslash s = s.
Proof.
  induction s as [|c s IH]; simpl; [done|].
  intros [Hc Hs]%orb_false_iff. by rewrite Hc, IH.
Qed.

Lemma convert_backslash_app (a b : string) :
  convert_backslash (a +:+ b) = convert_backslash a +:+ convert_backslash b.
Proof.
  induction a as [|x a IH]; [done|]. rewrite !string_app_cons. simpl.
  by rewrite IH.
Qed.

Lemma rfind_none (c : Ascii.ascii) (s : string) :
  has_char c s = false → rfind c s = None.
Proof.
  induction s as [|a s IH]; simpl; [done|].
  intros [Ha Hs]%orb_false_iff. by rewrite IH, Ha.
Qed.

Lemma rfind_app_last (c : Ascii.ascii) (a b : string) :
  has_char c b = false →
  rfind c (a +:+ String c b) = Some (String.length a).
Proof.
  intros Hb. induction a as [|x a IH].
  - change ("" +:+ String c b) with (String c b). simpl.
    by rewrite (rfind_none c b Hb), Ascii.eqb_refl.
  - rewrite string_app_cons. simpl. by rewrite IH.
Qed.

Lemma substring_prefix (a b : string) :
  String.substring 0 (String.length a) (a +:+ b) = a.
Proof.
  induction a as [|x a IH].
  - by destruct b.
  - rewrite string_app_cons. simpl. by rewrite IH.
Qed.

Lemma is_absolute_no_slash (s : string) :
  has_char slash s = false → is_absolute s = false.
Proof.
  intros Hs. unfold is_absolute, char_is.
  destruct s as [|a [|b [|c s]]]; simpl in *; try done;
    apply orb_false_iff in Hs as [-> Hs]; simpl; try done.
  apply orb_false_iff in Hs as [_ Hs].
  apply orb_false_iff in Hs as [-> _].
  by rewrite !andb_false_r.
Qed.

(** X20. Replacing a backslash of [argv[0]] by a forward slash does not
    change the result of [FindResourcePath]: [a\b] and [a/b] give the same
    resource path. *)
Theorem FindResourcePath_backslash (env : Env) (cwd : string) (argc : nat)
    (a b : string) (rest : list string) :
  FindResourcePath env cwd argc (Some ((a +:+ String backslash b) :: rest))
  = FindResourcePath env cwd argc (Some ((a +:+ String slash b) :: rest)).
Proof.
  unfold FindResourcePath. destruct (Nat.eqb argc 0); [reflexivity|].
  simpl nth. by rewrite !convert_backslash_app.
Qed.

(** X21. For an absolute [argv[0]] of the form [dir/name], where [name]
    has no separator, [FindResourcePath] chops the name off: the result is
    [dir/resources] if that directory exists and [dir/../resources]
    otherwise, whatever the working directory is. *)
Theorem FindResourcePath_absolute (env : Env) (cwd : string) (argc : nat)
    (dir name : string) (rest : list string) :
  argc ≠ 0 →
  has_char backslash dir = false →
  has_char backslash name = false →
  has_char slash name = false →
  is_absolute (dir +:+ "/" +:+ name) = true →
  FindResourcePath env cwd argc (Some ((dir +:+ "/" +:+ name) :: rest))
  = if DirectoryExists env (dir +:+ "/resources")
    then dir +:+ "/resources"
    else dir +:+ "/../resources".
Proof.
  intros Hargc Hdir Hname Hslash Habs. unfold FindResourcePath.
  rewrite (proj2 (Nat.eqb_neq argc 0) Hargc). simpl nth.
  assert (convert_backslash (dir +:+ "/" +:+ name) = dir +:+ "/" +:+ name) as ->.
  { rewrite !convert_backslash_app, (convert_backslash_none dir Hdir),
      (convert_backslash_none name Hname). reflexivity. }
  rewrite Habs.
  assert (rfind slash (dir +:+ "/" +:+ name) = Some (String.length dir)) as ->.
  { apply (rfind_app_last slash dir name Hslash). }
  unfold substr0. rewrite substring_prefix.
  by destruct (DirectoryExists env _).
Qed.

Lemma FindResourcePath_absolute_witness :
  let env := mkEnv "/home/user" [] ["/usr/bin/resources"] in
  (1 ≠ 0 ∧ has_char backslash "/usr/bin" = false
   ∧ has_char backslash "viewer" = false ∧ has_char slash "viewer" = false
   ∧ is_absolute ("/usr/bin" +:+ "/" +:+ "viewer") = true)
  ∧ FindResourcePath env "/tmp" 1 (Some ["/usr/bin" +:+ "/" +:+ "viewer"])
    = "/usr/bin/resources".
Proof.
  intros env.
  assert (1 ≠ 0) as H1 by lia.
  assert (has_char backslash "/usr/bin" = false) as H2 by reflexivity.
  assert (has_char backslash "viewer" = false) as H3 by reflexivity.
  assert (has_char slash "viewer" = false) as H4 by reflexivity.
  assert (is_absolute ("/usr/bin" +:+ "/" +:+ "viewer") = true) as H5 by reflexivity.
  split; [by repeat split|].
  etrans; [exact (FindResourcePath_absolute env "/tmp" 1 "/usr/bin" "viewer" []
                    H1 H2 H3 H4 H5)|].
  vm_compute. reflexivity.
Defined.

(** X22. When [argv[0]] contains no separator at all (a bare program
    name, or no [argv[0]]), nothing is chopped off: the name is taken for a
    directory under the working directory, and the result is
    [cwd/name/resources] if that directory exists and [cwd/name/../resources]
    otherwise. *)
Theorem FindResourcePath_bare_name (env : Env) (cwd : string) (argc : nat)
    (argv : option (list string)) :
  let argv0 := match argv with
               | Some args => if Nat.eqb argc 0 then "" else nth 0 args ""
               | None => ""
               end in
  has_char backslash argv0 = false →
  has_char slash argv0 = false →
  FindResourcePath env cwd argc argv
  = if DirectoryExists env (cwd +:+ "/" +:+ argv0 +:+ "/resources")
    then cwd +:+ "/" +:+ argv0 +:+ "/resources"
    else cwd +:+ "/" +:+ argv0 +:+ "/../resources".
Proof.
  intros argv0 Hback Hslash. unfold FindResourcePath. fold argv0.
  rewrite (convert_backslash_none argv0 Hback).
  rewrite (rfind_none slash argv0 Hslash), (is_absolute_no_slash argv0 Hslash).
  unfold substr0. rewrite !string_app_assoc.
  by destruct (DirectoryExists env _).
Qed.

Lemma FindResourcePath_bare_name_witness :
  let env := mkEnv "/home/user" [] [] in
  (has_char backslash "viewer" = false ∧ has_char slash "viewer" = false)
  ∧ FindResourcePath env "/work" 1 (Some ["viewer"]) = "/work/viewer/../resources".
Proof.
  intros env.
  assert (has_char backslash "viewer" = false) as H1 by reflexivity.
  assert (has_char slash "viewer" = false) as H2 by reflexivity.
  split; [by split|].
  etrans; [exact (FindResourcePath_bare_name env "/work" 1 (Some ["viewer"]) H1 H2)|].
  vm_compute. reflexivity.
Defined.

(** ** Histories of calls *)

Lemma Initialize_window_system (env : Env) (p : string) (s : AppState) :
  window_system_ (exec (Initialize env p) s) ≠ None.
Proof.
  unfold exec, state_of. destruct (prepared_ready s) as [Hws _].
  destruct (is_initialized_ s) eqn:Hinit.
  - by rewrite Initialize_initialized.
  - rewrite Initialize_first by done. by destruct (FileExists env _).
Qed.

Lemma RemoveWindow_window_system (p : WindowPtr) (s : AppState) :
  window_system_ (exec (RemoveWindow p) s) = window_system_ s.
Proof.
  unfold exec, state_of.
  destruct (List.find (same_window p) (elements (windows_ s))) as [w|] eqn:Hfind.
  - assert (p = Some w ∧ w ∈ windows_ s) as [-> Hin].
    { apply find_some in Hfind as [Hin Heq]. split.
      - unfold same_window in Heq. by apply bool_decide_eq_true in Heq.
      - by apply elem_of_elements, list_elem_of_In. }
    rewrite (RemoveWindow_present_run _ _ Hin). cbn [fst snd].
    unfold quit_if_empty. by destruct (bool_decide _).
  - rewrite RemoveWindow_absent_run.
    + cbn [fst snd]. unfold quit_if_empty. by destruct (bool_decide _).
    + intros w -> Hin.
      apply elem_of_elements, list_elem_of_In in Hin.
      pose proof (find_none _ _ Hfind w Hin) as Hno.
      rewrite same_window_Some in Hno. by apply bool_decide_eq_false in Hno.
Qed.

Lemma start_if_needed_cases (env : Env) (s : AppState) :
  (is_running_ s = true ∧ start_if_needed env s = (Returned true, s, []))
  ∨ (∃ msg, start_if_needed env s = (Returned false, s, [EvNativeAlert msg]))
  ∨ start_if_needed env s
    = (Returned true, set_is_running_ true (prepared s), prepare_calls s).
Proof.
  destruct (is_running_ s) eqn:Hrun.
  { left. split; [done|]. by apply start_if_needed_running. }
  right.
  destruct (is_initialized_ s) eqn:Hinit;
    [|left; apply start_if_needed_fails; auto].
  destruct (DirectoryExists env (engine_resource_path s)) eqn:Hdir;
    [|left; apply start_if_needed_fails; auto].
  destruct (FileExists env (font_path s)) eqn:Hfont;
    [|left; apply start_if_needed_fails; auto].
  right. by apply start_if_needed_ok.
Qed.

Lemma RunOneTick_window_system (env : Env) (cleanup : bool) (now : float)
    (s : AppState) :
  (is_running_ s = true → window_system_ s ≠ None) →
  is_running_ (exec (RunOneTick env cleanup now) s) = true →
  window_system_ (exec (RunOneTick env cleanup now) s) ≠ None.
Proof.
  intros Hinv.
  assert (∀ s1 e1,
    start_if_needed env s = (Returned true, s1, e1) →
    window_system_ s1 ≠ None →
    window_system_ (exec (RunOneTick env cleanup now) s) ≠ None) as Hstarted.
  { intros s1 e1 Hstart Hws.
    destruct (state_after_events_frame now s1) as (_ & _ & _ & _ & _ & _ & Hs).
    rewrite <- Hs in Hws.
    pose proof (RunOneTick_started env cleanup now s s1) as Hstep.
    remember (state_after_events now s1) as s2 eqn:Hs2. clear Hs2 Hs.
    unfold exec, state_of.
    destruct (should_quit_ s1) eqn:Hquit; [destruct cleanup|].
    - destruct (cleanup_done_run s2) as (ts & evs & _ & Hclean).
      by rewrite (Hstep _ _ _ Hstart Hclean).
    - by rewrite (Hstep (set_should_quit_ false s2) e1 [] Hstart eq_refl).
    - by rewrite (Hstep s2 e1 [] Hstart eq_refl). }
  destruct (start_if_needed_cases env s) as [[Hrun Hstart]|[[msg Hstart]|Hstart]].
  - intros _. apply (Hstarted s []); auto.
  - unfold exec, state_of, RunOneTick.
    erewrite bind_run; [| exact Hstart | reflexivity]. cbn [fst snd]. auto.
  - intros _. apply (Hstarted _ _ Hstart). simpl.
    by destruct (prepared_ready s).
Qed.


